(** * ylf-chat: the message log, the registries and the presence engine

    A shallow embedding of the data-store module (db.js) and of the
    connection handling of the server (server.js), and the properties of
    the message log, of pagination, of mention resolution, of the sticker
    and file registries and of the presence state machine.

    Conventions of the embedding.
    - JavaScript numbers that hold ids, counters, lengths and timestamps
      are integers of [Z]; [null]/[undefined] is [None].
    - 0/1 flags ([is_deleted], [is_verified]) keep their numeric value and
      are tested through [truthy], as the code tests them.
    - The store is one mutable object in the source; here every operation
      takes the store and returns the new store next to its result.
    - Strings are [string]s read as ASCII text: white space and case
      conversion are those of ASCII.
    - [scheduleSave] only writes the store to disk and is left out. *)

From Stdlib Require Import ZArith String Ascii Lia Sorted.
From stdpp Require Import gmap strings list fin_maps.

Local Open Scope Z_scope.

(** ** Strings, the random source and the clock *)

Module Runtime.

(** The white space of ASCII, which [trim] strips and the regular
    expression class [\s] matches. *)
Definition is_space (c : ascii) : bool :=
  match N_of_ascii c with
  | 9%N | 10%N | 11%N | 12%N | 13%N | 32%N => true
  | _ => false
  end.

Definition lower_char (c : ascii) : ascii :=
  let n := N_of_ascii c in
  if ((65 <=? n) && (n <=? 90))%N then ascii_of_N (n + 32) else c.

Definition upper_char (c : ascii) : ascii :=
  let n := N_of_ascii c in
  if ((97 <=? n) && (n <=? 122))%N then ascii_of_N (n - 32) else c.

Fixpoint map_string (f : ascii → ascii) (s : string) : string :=
  match s with
  | EmptyString => EmptyString
  | String c r => String (f c) (map_string f r)
  end.

Definition toLowerCase : string → string := map_string lower_char.
Definition toUpperCase : string → string := map_string upper_char.

Fixpoint trim_start (s : string) : string :=
  match s with
  | EmptyString => EmptyString
  | String c r => if is_space c then trim_start r else s
  end.

(** [trim_end] keeps a character when it is not a space or when something
    that is kept follows it. *)
Fixpoint trim_end (s : string) : string :=
  match s with
  | EmptyString => EmptyString
  | String c r =>
      match trim_end r with
      | EmptyString => if is_space c then EmptyString else String c EmptyString
      | r' => String c r'
      end
  end.

Definition trim (s : string) : string := trim_end (trim_start s).

(** [s.slice(0, n)] *)
Fixpoint slice_prefix (n : nat) (s : string) : string :=
  match n, s with
  | S k, String c r => String c (slice_prefix k r)
  | _, _ => EmptyString
  end.

Definition str_length (s : string) : Z := Z.of_nat (String.length s).

(** The outside world a handler reads: the random source ([crypto]) as
    the sequence of its raw draws, and the clock ([Date.now]) as the
    sequence of its readings. *)
Record World := mkWorld {
  entropy : nat → nat;
  drawn : nat;
  clock : nat → Z;
  ticks : nat
}.

Definition Eff (A : Type) : Type := World → A * World.

Definition eff_ret {A} (a : A) : Eff A := λ w, (a, w).

Definition eff_bind {A B} (c : Eff A) (k : A → Eff B) : Eff B :=
  λ w, let (a, w') := c w in k a w'.

Declare Scope eff_scope.
Delimit Scope eff_scope with eff.
Notation "x <- c ;; k" := (eff_bind c (λ x, k))
  (at level 100, c at next level, right associativity) : eff_scope.

Definition raw_draw : Eff nat :=
  λ w, (entropy w (drawn w),
        {| entropy := entropy w; drawn := S (drawn w);
           clock := clock w; ticks := ticks w |}).

(** [crypto.randomInt(lo, hi)]: an integer of [lo, hi). *)
Definition randomInt (lo hi : nat) : Eff nat :=
  (r <- raw_draw ;; eff_ret (lo + r mod (hi - lo))%nat)%eff.

(** [crypto.randomBytes(n)] *)
Fixpoint randomBytes (n : nat) : Eff (list nat) :=
  match n with
  | O => eff_ret []
  | S k =>
      (r <- raw_draw ;;
       rest <- randomBytes k ;;
       eff_ret ((r mod 256)%nat :: rest))%eff
  end.

(** [Date.now()] *)
Definition Date_now : Eff Z :=
  λ w, (clock w (ticks w),
        {| entropy := entropy w; drawn := drawn w;
           clock := clock w; ticks := S (ticks w) |}).

Definition hex_digit (n : nat) : ascii :=
  if (n <? 10)%nat then ascii_of_nat (48 + n) else ascii_of_nat (87 + n).

(** [buffer.toString('hex')] *)
Fixpoint to_hex (bytes : list nat) : string :=
  match bytes with
  | [] => EmptyString
  | b :: rest =>
      String (hex_digit (b / 16)) (String (hex_digit (b mod 16)) (to_hex rest))
  end.

(** [s.replace(/c/g, by)] for a single character [c]. *)
Fixpoint replace_char (c : ascii) (by_ : string) (s : string) : string :=
  match s with
  | EmptyString => EmptyString
  | String x r =>
      if decide (x = c) then (by_ ++ replace_char c by_ r)%string
      else String x (replace_char c by_ r)
  end.



Definition digit_char (d : Z) : ascii := ascii_of_N (Z.to_N (48 + d)).

(** The decimal digits of a natural number, most significant first, in
    front of [acc]; [fuel] bounds the number of digits. *)
Fixpoint decimal_digits (fuel : nat) (n : Z) (acc : string) : string :=
  match fuel with
  | O => acc
  | S fuel' =>
      let acc' := String (digit_char (n mod 10)) acc in
      if n / 10 =? 0 then acc' else decimal_digits fuel' (n / 10) acc'
  end.

(** [n.toString()] for an integer [0 <= n]; a number below [2^63] has
    at most 19 digits. *)
Definition number_toString (n : Z) : string :=
  decimal_digits 19 n EmptyString.

Fixpoint repeat_char (n : nat) (c : ascii) : string :=
  match n with
  | O => EmptyString
  | S k => String c (repeat_char k c)
  end.

(** [s.padStart(n, c)] for a single character [c]. *)
Definition padStart (n : nat) (c : ascii) (s : string) : string :=
  (repeat_char (n - String.length s) c ++ s)%string.

End Runtime.

(** ** The data store (db.js) *)

Module Db.

Import Runtime.

Definition MAX_CUSTOM_STICKERS : Z := 60.

Record Sticker := mkSticker {
  sticker_id : string;
  sticker_description : string;
  sticker_preview_url : string;
  sticker_image_url : string;
  sticker_created_at : Z
}.

Record User := mkUser {
  user_id : Z;
  user_email : string;
  password_hash : string;
  display_name : string;
  avatar_source : string;
  avatar_url : option string;
  is_verified : Z;
  verification_token : option string;
  verification_expires : option Z;
  reset_code_hash : option string;
  reset_code_expires : option Z;
  user_created_at : Z;
  user_updated_at : Z;
  custom_stickers : list Sticker
}.

Record Message := mkMessage {
  msg_id : Z;
  msg_user_id : option Z;
  msg_content : string;
  msg_created_at : Z;
  msg_reply_to_id : option Z;
  msg_is_deleted : Z
}.

Record FileRecord := mkFileRecord {
  file_id : Z;
  file_user_id : Z;
  file_code : string;
  file_object_key : string;
  file_name : string;
  file_size : Z;
  file_content_type : string;
  file_created_at : Z
}.

Record Store := mkStore {
  users : list User;
  messages : list Message;
  files : list FileRecord;
  nextUserId : Z;
  nextMessageId : Z;
  nextFileId : Z
}.

Definition defaultStore : Store :=
  {| users := []; messages := []; files := [];
     nextUserId := 1; nextMessageId := 1; nextFileId := 1 |}.

(** JavaScript truthiness of a number. *)
Definition truthy (z : Z) : bool := negb (z =? 0).

(** [x || null] on a number or null: 0 is falsy. *)
Definition or_null (x : option Z) : option Z :=
  match x with
  | Some v => if truthy v then Some v else None
  | None => None
  end.

(** [store.users.find(u => u.id === id)] *)
Definition findUser (s : Store) (id : Z) : option (nat * User) :=
  list_find (λ u, user_id u = id) (users s).

(** [store.messages.find(m => m.id === messageId)] *)
Definition findMessage (s : Store) (messageId : Z) : option (nat * Message) :=
  list_find (λ m, msg_id m = messageId) (messages s).

(** [cloneUser(store.users.find(u => u.id === id))]: the copy of an
    immutable record is the record. *)
Definition getUserById (s : Store) (id : Z) : option User :=
  snd <$> findUser s id.

Definition with_messages (s : Store) (ms : list Message) : Store :=
  {| users := users s; messages := ms; files := files s;
     nextUserId := nextUserId s; nextMessageId := nextMessageId s;
     nextFileId := nextFileId s |}.

Definition with_users (s : Store) (us : list User) : Store :=
  {| users := us; messages := messages s; files := files s;
     nextUserId := nextUserId s; nextMessageId := nextMessageId s;
     nextFileId := nextFileId s |}.

(** [saveMessage(userId, content, createdAt, replyToId)] *)
Definition saveMessage (s : Store) (userId : option Z) (content : string)
    (createdAt : Z) (replyToId : option Z) : Store * Message :=
  let message :=
    {| msg_id := nextMessageId s;
       msg_user_id := userId;
       msg_content := content;
       msg_created_at := createdAt;
       msg_reply_to_id := or_null replyToId;
       msg_is_deleted := 0 |} in
  ({| users := users s;
      messages := messages s ++ [message];
      files := files s;
      nextUserId := nextUserId s;
      nextMessageId := nextMessageId s + 1;
      nextFileId := nextFileId s |},
   message).

Inductive Reason := not_found | permission_denied | limit | expired.

(** The result objects of [deleteMessage]:
    [{success: false, reason}], [{success: true, already: true}] and
    [{success: true}]. *)
Inductive DeleteResult :=
  | DeleteFailed (reason : Reason)
  | Deleted (already : bool).

Definition mark_deleted (m : Message) : Message :=
  {| msg_id := msg_id m;
     msg_user_id := msg_user_id m;
     msg_content := msg_content m;
     msg_created_at := msg_created_at m;
     msg_reply_to_id := msg_reply_to_id m;
     msg_is_deleted := 1 |}.

(** [deleteMessage(messageId, requestingUserId)] *)
Definition deleteMessage (s : Store) (messageId : Z)
    (requestingUserId : option Z) : Store * DeleteResult :=
  match findMessage s messageId with
  | None => (s, DeleteFailed not_found)
  | Some (i, message) =>
      if decide (msg_user_id message = requestingUserId) then
        if truthy (msg_is_deleted message) then (s, Deleted true)
        else (with_messages s (<[i := mark_deleted message]> (messages s)),
              Deleted false)
      else (s, DeleteFailed permission_denied)
  end.

(** [getMessageById(id)]: the message joined with its author's current
    profile; a missing author degrades to an anonymous label. *)
Record MessageView := mkMessageView {
  view_message : Message;
  view_display_name : string;
  view_email : string;
  view_avatar_source : string;
  view_avatar_url : option string
}.

Definition UNKNOWN_USER : string := "未知用户".
Definition SYSTEM_AUTHOR : string := "系统消息".

(** [store.users.find(u => u.id === msg.user_id)]: user ids are numbers,
    so a null author matches no user. *)
Definition findAuthor (s : Store) (author : option Z) : option User :=
  match author with
  | Some uid => getUserById s uid
  | None => None
  end.

Definition getMessageById (s : Store) (id : Z) : option MessageView :=
  match findMessage s id with
  | None => None
  | Some (_, message) =>
      let user := findAuthor s (msg_user_id message) in
      Some {| view_message := message;
              view_display_name := from_option display_name UNKNOWN_USER user;
              view_email := from_option user_email "" user;
              view_avatar_source := from_option avatar_source "gravatar" user;
              view_avatar_url := user ≫= avatar_url |}
  end.

(** [String(name || '').trim().toLowerCase()] *)
Definition normalize_name (name : string) : string :=
  toLowerCase (trim name).

(** [getUserByDisplayName(name)] *)
Definition getUserByDisplayName (s : Store) (name : string) : option User :=
  let value := normalize_name name in
  if decide (value = "") then None
  else snd <$> list_find (λ u, normalize_name (display_name u) = value) (users s).

(** A row of a history page. *)
Record Row := mkRow {
  row_id : Z;
  row_user_id : option Z;
  row_content : string;
  row_created_at : Z;
  row_display_name : string;
  row_email : string;
  row_avatar_source : string;
  row_avatar_url : option string;
  row_is_deleted : Z;
  row_reply_to_id : option Z
}.

(** The callback of [slice.map] in [getMessagesPage]: a message whose
    author is set but is no longer a user maps to [null]. *)
Definition page_row (s : Store) (msg : Message) : option Row :=
  let user := findAuthor s (msg_user_id msg) in
  match user, msg_user_id msg with
  | None, Some _ => None
  | _, _ =>
      Some {| row_id := msg_id msg;
              row_user_id := msg_user_id msg;
              row_content := msg_content msg;
              row_created_at := msg_created_at msg;
              row_display_name := from_option display_name SYSTEM_AUTHOR user;
              row_email := from_option user_email "" user;
              row_avatar_source := from_option avatar_source "gravatar" user;
              row_avatar_url := user ≫= avatar_url;
              row_is_deleted := msg_is_deleted msg;
              row_reply_to_id := msg_reply_to_id msg |}
  end.

(** [array.slice(-take)] for a positive integer [take]: the last [take]
    elements, all of them when the array is shorter. *)
Definition slice_last {A} (take : Z) (l : list A) : list A :=
  drop (length l - Z.to_nat take) l.

(** [getMessagesPage(limit, beforeId)]. [limit] is a number; [beforeId]
    is [None] when the argument is absent or not an integer. *)
Definition getMessagesPage (s : Store) (limit : Z) (beforeId : option Z)
    : list Row :=
  let take := Z.max 0 limit in
  if take =? 0 then []
  else
    let filtered :=
      match beforeId with
      | Some b => filter (λ msg, msg_id msg < b) (messages s)
      | None => messages s
      end in
    omap (page_row s) (slice_last take filtered).

Definition getRecentMessages (s : Store) (limit : Z) : list Row :=
  getMessagesPage s limit None.

(** The result objects of [addUserSticker]. *)
Inductive AddStickerResult :=
  | AddFailed (reason : Reason)
  | Added (sticker : Sticker) (stickers : list Sticker).

Definition with_stickers (u : User) (stickers : list Sticker) (updated : Z)
    : User :=
  {| user_id := user_id u;
     user_email := user_email u;
     password_hash := password_hash u;
     display_name := display_name u;
     avatar_source := avatar_source u;
     avatar_url := avatar_url u;
     is_verified := is_verified u;
     verification_token := verification_token u;
     verification_expires := verification_expires u;
     reset_code_hash := reset_code_hash u;
     reset_code_expires := reset_code_expires u;
     user_created_at := user_created_at u;
     user_updated_at := updated;
     custom_stickers := stickers |}.

(** [addUserSticker({ id, description, previewUrl, imageUrl })] *)
Definition addUserSticker (s : Store) (id : Z)
    (description previewUrl imageUrl : string)
    : Eff (Store * AddStickerResult) :=
  match findUser s id with
  | None => eff_ret (s, AddFailed not_found)
  | Some (i, user) =>
      if Z.of_nat (length (custom_stickers user)) >=? MAX_CUSTOM_STICKERS
      then eff_ret (s, AddFailed limit)
      else
        (bytes <- randomBytes 8 ;;
         created <- Date_now ;;
         let sticker :=
           {| sticker_id := to_hex bytes;
              sticker_description := description;
              sticker_preview_url := previewUrl;
              sticker_image_url := imageUrl;
              sticker_created_at := created |} in
         let stickers := custom_stickers user ++ [sticker] in
         updated <- Date_now ;;
         eff_ret (with_users s (<[i := with_stickers user stickers updated]> (users s)),
                  Added sticker stickers))%eff
  end.

(** [getFileByCode(code)] *)
Definition getFileByCode (s : Store) (code : string) : option FileRecord :=
  let normalized := toUpperCase (trim code) in
  if decide (normalized = "") then None
  else snd <$> list_find (λ file, file_code file = normalized) (files s).

(** *** Users, stickers and files: the remaining operations *)



(** [x || fallback] and [x || null] on a string that may be absent: the
    empty string is falsy. *)
Definition or_default (x : option string) (fallback : string) : string :=
  match x with
  | Some (String c r) => String c r
  | _ => fallback
  end.

Definition or_null_string (x : option string) : option string :=
  match x with
  | Some (String c r) => Some (String c r)
  | _ => None
  end.







(** A user with some of its mutable fields assigned; id, email, creation
    time and stickers stay. *)
Definition user_with (u : User) (name : string) (source : string)
    (url : option string) (hash : string) (verified : Z)
    (token : option string) (expires : option Z)
    (resetHash : option string) (resetExpires : option Z) (updated : Z)
    : User :=
  {| user_id := user_id u;
     user_email := user_email u;
     password_hash := hash;
     display_name := name;
     avatar_source := source;
     avatar_url := url;
     is_verified := verified;
     verification_token := token;
     verification_expires := expires;
     reset_code_hash := resetHash;
     reset_code_expires := resetExpires;
     user_created_at := user_created_at u;
     user_updated_at := updated;
     custom_stickers := custom_stickers u |}.

(** The result [{ changes: n }] of an update is the number [n]. *)

(** [updateUserProfile({ id, displayName, avatarSource, avatarUrl })] *)
Definition updateUserProfile (s : Store) (id : Z) (displayName : string)
    (avatarSource avatarUrl : option string) : Eff (Store * Z) :=
  match findUser s id with
  | None => eff_ret (s, 0)
  | Some (i, user) =>
      (now <- Date_now ;;
       eff_ret
         (with_users s
            (<[i := user_with user displayName
                      (or_default avatarSource "gravatar")
                      (or_null_string avatarUrl)
                      (password_hash user) (is_verified user)
                      (verification_token user) (verification_expires user)
                      (reset_code_hash user) (reset_code_expires user) now]>
               (users s)),
          1))%eff
  end.

(** [updateUserVerification({ id, isVerified, token, expires })] *)
Definition updateUserVerification (s : Store) (id : Z) (isVerified : bool)
    (token : option string) (expires : option Z) : Eff (Store * Z) :=
  match findUser s id with
  | None => eff_ret (s, 0)
  | Some (i, user) =>
      (now <- Date_now ;;
       eff_ret
         (with_users s
            (<[i := user_with user (display_name user) (avatar_source user)
                      (avatar_url user) (password_hash user)
                      (if isVerified then 1 else 0)
                      (or_null_string token) (or_null expires)
                      (reset_code_hash user) (reset_code_expires user) now]>
               (users s)),
          1))%eff
  end.

(** [updateUserPassword({ id, passwordHash })] *)
Definition updateUserPassword (s : Store) (id : Z) (passwordHash : string)
    : Eff (Store * Z) :=
  match findUser s id with
  | None => eff_ret (s, 0)
  | Some (i, user) =>
      (now <- Date_now ;;
       eff_ret
         (with_users s
            (<[i := user_with user (display_name user) (avatar_source user)
                      (avatar_url user) passwordHash (is_verified user)
                      (verification_token user) (verification_expires user)
                      (reset_code_hash user) (reset_code_expires user) now]>
               (users s)),
          1))%eff
  end.

(** [setPasswordResetCode({ id, codeHash, expires })] *)
Definition setPasswordResetCode (s : Store) (id : Z)
    (codeHash : option string) (expires : option Z) : Eff (Store * Z) :=
  match findUser s id with
  | None => eff_ret (s, 0)
  | Some (i, user) =>
      (now <- Date_now ;;
       eff_ret
         (with_users s
            (<[i := user_with user (display_name user) (avatar_source user)
                      (avatar_url user) (password_hash user) (is_verified user)
                      (verification_token user) (verification_expires user)
                      codeHash expires now]>
               (users s)),
          1))%eff
  end.

(** [clearPasswordResetCode(id)] *)
Definition clearPasswordResetCode (s : Store) (id : Z) : Eff (Store * Z) :=
  match findUser s id with
  | None => eff_ret (s, 0)
  | Some (i, user) =>
      (now <- Date_now ;;
       eff_ret
         (with_users s
            (<[i := user_with user (display_name user) (avatar_source user)
                      (avatar_url user) (password_hash user) (is_verified user)
                      (verification_token user) (verification_expires user)
                      None None now]>
               (users s)),
          1))%eff
  end.

(** The result objects of [verifyUserByToken]. *)
Inductive VerifyResult :=
  | VerifyFailed (reason : Reason) (user : option User)
  | Verified (already : bool) (user : User).

(** [verifyUserByToken(token)] *)
Definition verifyUserByToken (s : Store) (token : string)
    : Eff (Store * VerifyResult) :=
  match list_find (λ u, verification_token u = Some token) (users s) with
  | None => eff_ret (s, VerifyFailed not_found None)
  | Some (i, user) =>
      if truthy (is_verified user) then eff_ret (s, Verified true user)
      else
        (lapsed <- match or_null (verification_expires user) with
                   | Some expires => (now <- Date_now ;; eff_ret (expires <? now))
                   | None => eff_ret false
                   end ;;
         if lapsed : bool then eff_ret (s, VerifyFailed expired (Some user))
         else
           (now <- Date_now ;;
            let user' :=
              user_with user (display_name user) (avatar_source user)
                (avatar_url user) (password_hash user) 1 None None
                (reset_code_hash user) (reset_code_expires user) now in
            eff_ret (with_users s (<[i := user']> (users s)),
                     Verified false user')))%eff
  end.

(** [getUserStickers(userId)] *)
Definition getUserStickers (s : Store) (userId : Z) : list Sticker :=
  match findUser s userId with
  | Some (_, user) => custom_stickers user
  | None => []
  end.

(** The result objects of [removeUserSticker]. *)
Inductive RemoveResult :=
  | RemoveFailed (reason : Reason)
  | Removed.

(** [removeUserSticker({ id, stickerId })] *)
Definition removeUserSticker (s : Store) (id : Z) (stickerId : string)
    : Eff (Store * RemoveResult) :=
  match findUser s id with
  | None => eff_ret (s, RemoveFailed not_found)
  | Some (i, user) =>
      match list_find (λ st, sticker_id st = stickerId) (custom_stickers user) with
      | None => eff_ret (s, RemoveFailed not_found)
      | Some (index, _) =>
          (now <- Date_now ;;
           eff_ret
             (with_users s
                (<[i := with_stickers user
                          (delete index (custom_stickers user)) now]>
                   (users s)),
              Removed))%eff
      end
  end.


(** The place of [x] in a list sorted by the comparison
    [(a, b) => b.created_at - a.created_at]: before the first record
    that is not newer than [x]. *)
Fixpoint insert_newest_first (x : FileRecord) (l : list FileRecord)
    : list FileRecord :=
  match l with
  | [] => [x]
  | y :: rest =>
      if file_created_at y <=? file_created_at x then x :: l
      else y :: insert_newest_first x rest
  end.

(** [array.sort((a, b) => b.created_at - a.created_at)]: the sort of the
    language is stable, and a stable sort has one result, which
    insertion from the right computes. *)
Definition sort_newest_first (l : list FileRecord) : list FileRecord :=
  foldr insert_newest_first [] l.

(** [getFilesByUser(userId)] *)
Definition getFilesByUser (s : Store) (userId : Z) : list FileRecord :=
  sort_newest_first (filter (λ file, file_user_id file = userId) (files s)).

End Db.

(** ** Connection handling (server.js) *)

Module Server.

Import Runtime Db.

Definition HISTORY_PAGE_SIZE : Z := 40.
Definition MAX_MESSAGE_LENGTH : Z := 5000.
Definition FILE_CODE_ALPHABET : string := "ABCDEFGHJKLMNPQRSTUVWXYZ23456789".

(** The delay passed to the timer call in [scheduleDeparture], in
    milliseconds. *)
Definition DEPARTURE_DELAY : Z := 3500.

(** The three global maps of the server next to the store. A socket id is
    a string. A [Set] of socket ids is the list of its elements in
    insertion order. A pending timer is recorded with the time it is due. *)
Record State := mkState {
  db : Store;
  connectedUsers : gmap string Z;
  userSockets : gmap Z (list string);
  disconnectTimers : gmap Z Z
}.

(** [set.add(x)] and [set.delete(x)] *)
Definition set_add (x : string) (l : list string) : list string :=
  if decide (x ∈ l) then l else l ++ [x].

Definition set_delete (x : string) (l : list string) : list string :=
  filter (λ y, y ≠ x) l.

(** The texts of the system messages, by their template. *)
Inductive SystemText :=
  | Joined (name : string)
  | Departed (name : string)
  | TooLong
  | NotVerified
  | CannotRecall.

(** What [formatMessagePayload] sends for a message. The rendered HTML
    and the avatar URL are computed by the renderer and the hash
    function, outside this development, and are left out; the time is
    kept as the number of milliseconds, whatever its printed form. *)
Record Payload := mkPayload {
  p_id : Z;
  p_userId : option Z;
  p_author : string;
  p_text : string;
  p_time : Z;
  p_isDeleted : bool;
  p_replyToId : option Z;
  p_mentions : list Z
}.

Inductive Event :=
  | auth_required
  | presence_init (self : Z) (roster : list Z) (online : nat)
  | chat_init (self : Z) (history : list Payload) (historyDone : bool)
      (online : nat) (roster : list Z)
  | system_message (text : SystemText)
  | roster_update (roster : list Z)
  | online_count (n : nat)
  | chat_message (payload : Payload)
  | mention (from : string) (text : string) (time : Z)
  | message_deleted (messageId : Z)
  | history_chunk (msgs : list Payload) (done : bool) (oldestId : Z).

(** [socket.emit] and [io.to(sid).emit] reach one socket, [io.emit]
    every socket, [socket.broadcast.emit] every socket but the sender. *)
Inductive Target :=
  | ToSocket (sid : string)
  | ToAll
  | ToOthers (sid : string).

Inductive Effect :=
  | Emit (target : Target) (event : Event)
  | Close (sid : string).

Inductive Mode := presence | chat.

(** [formatMessagePayload(row, mentionMap)] *)
Definition formatMessagePayload (row : Row) : Payload :=
  match row_user_id row with
  | None =>
      {| p_id := row_id row; p_userId := None; p_author := SYSTEM_AUTHOR;
         p_text := row_content row; p_time := row_created_at row;
         p_isDeleted := false; p_replyToId := None; p_mentions := [] |}
  | Some uid =>
      if truthy (row_is_deleted row) then
        {| p_id := row_id row; p_userId := Some uid;
           p_author := row_display_name row;
           p_text := (row_display_name row ++ " 撤回了一条消息")%string;
           p_time := row_created_at row;
           p_isDeleted := true; p_replyToId := None; p_mentions := [] |}
      else
        {| p_id := row_id row; p_userId := Some uid;
           p_author := row_display_name row;
           p_text := row_content row;
           p_time := row_created_at row;
           p_isDeleted := truthy (row_is_deleted row);
           p_replyToId := or_null (row_reply_to_id row);
           p_mentions := [] |}
  end.

(** [buildRoster()]: the online users that still exist. The roster is
    kept as the list of their ids; sorting it by display name with a
    locale collation is left to the client-facing layer. *)
Definition buildRoster (st : State) : list Z :=
  filter (λ id, is_Some (getUserById (db st) id))
         (fst <$> map_to_list (userSockets st)).

(** The tokens matched by [/@([^\s@]+)(?=\s|$)/g], left to right. [open]
    is the run read since the last [@], if one is being read. A run
    followed by another [@] fails the lookahead and is dropped; the
    second [@] starts a new run. *)
Definition is_at (c : ascii) : bool := bool_decide (c = "@"%char).

Definition close_run (open : option string) : list string :=
  match open with
  | Some (String c r) => [String c r]
  | _ => []
  end.

Fixpoint mention_tokens_from (open : option string) (text : string)
    : list string :=
  match text with
  | EmptyString => close_run open
  | String c rest =>
      if is_at c then mention_tokens_from (Some EmptyString) rest
      else if is_space c then close_run open ++ mention_tokens_from None rest
      else
        mention_tokens_from
          ((λ name, (name ++ String c EmptyString)%string) <$> open) rest
  end.

Definition mention_tokens (text : string) : list string :=
  mention_tokens_from None text.

(** The result of [extractMentions]: [ids] and the [Map] from name to
    id, as the list of its entries in insertion order. *)
Record Mentions := mkMentions {
  mention_ids : list Z;
  mention_map : list (string * Z)
}.

Definition map_has (name : string) (m : list (string * Z)) : bool :=
  bool_decide (name ∈ m.*1).

(** The body of the [while] loop of [extractMentions] for one match. *)
Definition mention_step (s : Store) (senderId : Z) (acc : Mentions)
    (name : string) : Mentions :=
  match getUserByDisplayName s name with
  | Some user =>
      if bool_decide (user_id user ≠ senderId) && negb (map_has name (mention_map acc))
      then {| mention_ids := mention_ids acc ++ [user_id user];
              mention_map := mention_map acc ++ [(name, user_id user)] |}
      else acc
  | None => acc
  end.

(** [extractMentions(text, senderId)] *)
Definition extractMentions (s : Store) (text : string) (senderId : Z)
    : Mentions :=
  foldl (mention_step s senderId)
        {| mention_ids := []; mention_map := [] |}
        (mention_tokens text).

(** [FILE_CODE_ALPHABET[idx]] appended to a string; an index out of
    range reads [undefined]. *)
Definition alphabet_at (idx : nat) : string :=
  match String.get idx FILE_CODE_ALPHABET with
  | Some c => String c EmptyString
  | None => "undefined"
  end.

(** The [for] loop of [generateFileCode]: [n] more characters. *)
Fixpoint sample_code (n : nat) : Eff string :=
  match n with
  | O => eff_ret EmptyString
  | S k =>
      (idx <- randomInt 0 (String.length FILE_CODE_ALPHABET) ;;
       rest <- sample_code k ;;
       eff_ret (alphabet_at idx ++ rest)%string)%eff
  end.

Definition fallback_code : Eff string :=
  (bytes <- randomBytes 6 ;;
   eff_ret (slice_prefix 8 (toUpperCase (to_hex bytes))))%eff.

(** The [do ... while (attempts < 5)] loop with [remaining] bodies left
    to run, then the fallback. *)
Fixpoint generate_attempts (remaining : nat) (s : Store) : Eff string :=
  match remaining with
  | O => fallback_code
  | S k =>
      (code <- sample_code 8 ;;
       match getFileByCode s code with
       | None => eff_ret code
       | Some _ => generate_attempts k s
       end)%eff
  end.

(** [generateFileCode()] *)
Definition generateFileCode (s : Store) : Eff string :=
  generate_attempts 5 s.

Definition with_db (st : State) (d : Store) : State :=
  {| db := d; connectedUsers := connectedUsers st;
     userSockets := userSockets st; disconnectTimers := disconnectTimers st |}.

Definition reject (sid : string) : list Effect :=
  [Emit (ToSocket sid) auth_required; Close sid].

(** The initial payload of a connection, by mode. *)
Definition initial_payload (st : State) (user : User) (mode : Mode) : Event :=
  match mode with
  | presence =>
      presence_init (user_id user) (buildRoster st) (size (userSockets st))
  | chat =>
      let historyPayload :=
        formatMessagePayload <$> getMessagesPage (db st) HISTORY_PAGE_SIZE None in
      chat_init (user_id user) historyPayload
        (Z.of_nat (length historyPayload) <? HISTORY_PAGE_SIZE)
        (size (userSockets st)) (buildRoster st)
  end.

(** The body of [io.on('connection', socket => ...)] up to the
    registration of the socket's handlers. [session_user] is
    [socket.request.session.userId]. *)
Definition on_connection (st : State) (sid : string)
    (session_user : option Z) (mode : Mode) : State * list Effect :=
  match or_null session_user with
  | None => (st, reject sid)
  | Some userId =>
      match getUserById (db st) userId with
      | None => (st, reject sid)
      | Some user =>
          let uid := user_id user in
          let hadPendingDeparture :=
            bool_decide (is_Some (disconnectTimers st !! uid)) in
          let socketsForUser := default [] (userSockets st !! uid) in
          let firstConnection :=
            bool_decide (length socketsForUser = 0%nat)
            && negb hadPendingDeparture in
          let st' :=
            {| db := db st;
               connectedUsers := <[sid := uid]> (connectedUsers st);
               userSockets := <[uid := set_add sid socketsForUser]> (userSockets st);
               disconnectTimers := delete uid (disconnectTimers st) |} in
          (st',
           [Emit (ToSocket sid) (initial_payload st' user mode)]
           ++ (if firstConnection
               then [Emit (ToOthers sid) (system_message (Joined (display_name user)));
                     Emit ToAll (roster_update (buildRoster st'))]
               else [])
           ++ [Emit ToAll (online_count (size (userSockets st')))])
      end
  end.

(** The argument of a [chat-message] event: a string, an object with an
    optional string [content] and a [replyTo] that is [Some] when it is
    an integer, or anything else. *)
Inductive ChatData :=
  | DataString (text : string)
  | DataObject (content : option string) (replyTo : option Z)
  | DataOther.

Definition chat_content (data : ChatData) : string * option Z :=
  match data with
  | DataString text => (trim text, None)
  | DataObject content replyTo => (trim (default EmptyString content), replyTo)
  | DataOther => (EmptyString, None)
  end.

(** The [mention] notices of a message: for every resolved id, one per
    socket of that user. *)
Definition mention_notices (st : State) (ids : list Z) (payload : Payload)
    : list Effect :=
  flat_map
    (λ id,
       match userSockets st !! id with
       | None => []
       | Some socketsSet =>
           (λ sid, Emit (ToSocket sid)
                     (mention (p_author payload) (p_text payload) (p_time payload)))
           <$> socketsSet
       end)
    ids.

(** [socket.on('chat-message', data => ...)] for the socket [sid] whose
    [socket.data.userId] is [userId]. *)
Definition on_chat_message (st : State) (sid : string) (userId : Z)
    (data : ChatData) : Eff (State * list Effect) :=
  let '(content, replyToId) := chat_content data in
  if decide (content = EmptyString) then eff_ret (st, [])
  else if str_length content >? MAX_MESSAGE_LENGTH then
    eff_ret (st, [Emit (ToSocket sid) (system_message TooLong)])
  else
    match getUserById (db st) userId with
    | None => eff_ret (st, reject sid)
    | Some freshUser =>
        if negb (truthy (is_verified freshUser)) then
          eff_ret (st, [Emit (ToSocket sid) (system_message NotVerified)])
        else
          let mentions := extractMentions (db st) content (user_id freshUser) in
          (createdAt <- Date_now ;;
           let '(db', saved) :=
             saveMessage (db st) (Some (user_id freshUser)) content createdAt
               replyToId in
           let formatted :=
             formatMessagePayload
               {| row_id := msg_id saved;
                  row_user_id := Some (user_id freshUser);
                  row_content := content;
                  row_created_at := createdAt;
                  row_display_name := display_name freshUser;
                  row_email := user_email freshUser;
                  row_avatar_source := avatar_source freshUser;
                  row_avatar_url := avatar_url freshUser;
                  row_is_deleted := msg_is_deleted saved;
                  row_reply_to_id := msg_reply_to_id saved |} in
           let payload :=
             {| p_id := p_id formatted; p_userId := p_userId formatted;
                p_author := p_author formatted; p_text := p_text formatted;
                p_time := p_time formatted; p_isDeleted := p_isDeleted formatted;
                p_replyToId := p_replyToId formatted;
                p_mentions := mention_ids mentions |} in
           eff_ret (with_db st db',
                    Emit ToAll (chat_message payload)
                    :: mention_notices st (mention_ids mentions) payload))%eff
    end.

(** [socket.on('delete-message', ({ messageId }) => ...)]; [messageId]
    is [None] when it is not an integer. *)
Definition on_delete_message (st : State) (sid : string) (userId : Z)
    (messageId : option Z) : State * list Effect :=
  match messageId with
  | None => (st, [])
  | Some mid =>
      match deleteMessage (db st) mid (Some userId) with
      | (db', Deleted _) => (with_db st db', [Emit ToAll (message_deleted mid)])
      | (db', DeleteFailed permission_denied) =>
          (with_db st db', [Emit (ToSocket sid) (system_message CannotRecall)])
      | (db', DeleteFailed _) => (with_db st db', [])
      end
  end.

(** [socket.on('history-request', params => ...)]; [params] is [None]
    when it is not an object, and its [beforeId] is [None] when
    [Number(params.beforeId)] is not an integer. *)
Definition on_history_request (st : State) (sid : string)
    (params : option (option Z)) : list Effect :=
  match params with
  | Some (Some beforeId) =>
      if beforeId <=? 0 then []
      else
        let rows := getMessagesPage (db st) HISTORY_PAGE_SIZE (Some beforeId) in
        match formatMessagePayload <$> rows with
        | [] => [Emit (ToSocket sid) (history_chunk [] true beforeId)]
        | first :: rest =>
            [Emit (ToSocket sid)
               (history_chunk (first :: rest)
                  (Z.of_nat (length rows) <? HISTORY_PAGE_SIZE)
                  (p_id first))]
        end
  | _ => []
  end.

(** [scheduleDeparture(userId)] at time [now]. *)
Definition scheduleDeparture (st : State) (now : Z) (userId : Z) : State :=
  match disconnectTimers st !! userId with
  | Some _ => st
  | None =>
      {| db := db st; connectedUsers := connectedUsers st;
         userSockets := userSockets st;
         disconnectTimers := <[userId := now + DEPARTURE_DELAY]> (disconnectTimers st) |}
  end.

(** [socket.on('disconnect', () => ...)] of the socket [sid] that was
    registered for the user [userId]. *)
Definition on_disconnect (st : State) (now : Z) (sid : string) (userId : Z)
    : State * list Effect :=
  let st1 :=
    {| db := db st; connectedUsers := delete sid (connectedUsers st);
       userSockets := userSockets st; disconnectTimers := disconnectTimers st |} in
  match userSockets st1 !! userId with
  | None => (st1, [])
  | Some socketsForUser =>
      let remaining := set_delete sid socketsForUser in
      let st2 :=
        {| db := db st1; connectedUsers := connectedUsers st1;
           userSockets := <[userId := remaining]> (userSockets st1);
           disconnectTimers := disconnectTimers st1 |} in
      if bool_decide (length remaining = 0%nat)
      then (scheduleDeparture st2 now userId, [])
      else (st2, [])
  end.

(** The callback of the timer of [scheduleDeparture]. The runtime calls
    it at a time [now] only while the timer is pending and due; a timer
    cleared by the clearing call never runs. *)
Definition departure_timeout (st : State) (now : Z) (userId : Z)
    : State * list Effect :=
  match disconnectTimers st !! userId with
  | None => (st, [])
  | Some due =>
      if now <? due then (st, [])
      else
        let st1 :=
          {| db := db st; connectedUsers := connectedUsers st;
             userSockets := userSockets st;
             disconnectTimers := delete userId (disconnectTimers st) |} in
        match userSockets st1 !! userId with
        | Some (sid :: rest) => (st1, [])
        | _ =>
            let st2 :=
              {| db := db st1; connectedUsers := connectedUsers st1;
                 userSockets := delete userId (userSockets st1);
                 disconnectTimers := disconnectTimers st1 |} in
            (st2,
             match getUserById (db st2) userId with
             | Some latest =>
                 [Emit ToAll (system_message (Departed (display_name latest)))]
             | None => []
             end
             ++ [Emit ToAll (roster_update (buildRoster st2));
                 Emit ToAll (online_count (size (userSockets st2)))])
        end
  end.

(** What happens to the presence registry, in the order the single
    event loop handles it; every input carries the time it is handled. *)
Inductive Input :=
  | Connect (sid : string) (session_user : option Z) (mode : Mode)
  | Disconnect (sid : string) (userId : Z)
  | TimerFires (userId : Z).

Definition step (st : State) (now : Z) (i : Input) : State * list Effect :=
  match i with
  | Connect sid session_user mode => on_connection st sid session_user mode
  | Disconnect sid userId => on_disconnect st now sid userId
  | TimerFires userId => departure_timeout st now userId
  end.

Fixpoint run (st : State) (inputs : list (Z * Input)) : State * list Effect :=
  match inputs with
  | [] => (st, [])
  | (now, i) :: rest =>
      let '(st1, out1) := step st now i in
      let '(st2, out2) := run st1 rest in
      (st2, out1 ++ out2)
  end.

(** The join and leave notices among the effects. *)
Definition is_joined (e : Effect) : bool :=
  match e with
  | Emit _ (system_message (Joined _)) => true
  | _ => false
  end.

Definition is_departed (e : Effect) : bool :=
  match e with
  | Emit _ (system_message (Departed _)) => true
  | _ => false
  end.

Definition is_presence_notice (e : Effect) : bool :=
  match e with
  | Emit _ (system_message (Joined _ | Departed _)) => true
  | Emit _ (roster_update _) => true
  | _ => false
  end.

(** *** Helpers of the routes *)


Definition double_quote : ascii := "034"%char.
Definition single_quote : ascii := "039"%char.

(** [escapeHtml(unsafe)]: five passes, the ampersand first. *)
Definition escapeHtml (unsafe : string) : string :=
  replace_char single_quote "&#039;"
    (replace_char double_quote "&quot;"
       (replace_char ">" "&gt;"
          (replace_char "<" "&lt;"
             (replace_char "&" "&amp;" unsafe)))).





(** [generateResetCode()] *)
Definition generateResetCode : Eff string :=
  (n <- randomInt 0 (Z.to_nat 1000000) ;;
   eff_ret (padStart 6 "0" (number_toString (Z.of_nat n))))%eff.

(** [parseConnectionMode(handshake)], from [handshake.auth.mode] and
    [handshake.query.mode]. *)
Definition parseConnectionMode (authMode queryMode : option string) : Mode :=
  let raw := or_default authMode (or_default queryMode EmptyString) in
  if decide (toLowerCase (trim raw) = "presence"%string) then presence else chat.





End Server.

(** ** Notions the statements are phrased with *)

Module Props.

Import Runtime Db Server.



(** The log is in append order: ids grow strictly along the log and stay
    below the counter. *)
Definition log_ordered (s : Store) : Prop :=
  StronglySorted Z.lt (msg_id <$> messages s)
  ∧ Forall (λ m, msg_id m < nextMessageId s) (messages s).

(** A small store used to exercise the statements: two messages of
    users and one system message. *)
Definition witness_store : Store :=
  {| users := []; nextUserId := 3; nextFileId := 1; files := [];
     nextMessageId := 4;
     messages :=
       [ {| msg_id := 1; msg_user_id := Some 1; msg_content := "hello";
            msg_created_at := 100; msg_reply_to_id := None; msg_is_deleted := 0 |};
         {| msg_id := 2; msg_user_id := None; msg_content := "maintenance";
            msg_created_at := 110; msg_reply_to_id := None; msg_is_deleted := 0 |};
         {| msg_id := 3; msg_user_id := Some 2; msg_content := "bye";
            msg_created_at := 120; msg_reply_to_id := Some 1; msg_is_deleted := 1 |} ] |}.

(** The messages a page is cut from: those below the cursor, if any. *)
Definition window (s : Store) (beforeId : option Z) : list Message :=
  match beforeId with
  | Some b => filter (λ msg, msg_id msg < b) (messages s)
  | None => messages s
  end.




Definition plain_user (id : Z) (name : string) (verified : Z) : User :=
  {| user_id := id; user_email := (name ++ "@example.org")%string;
     password_hash := ""; display_name := name;
     avatar_source := "gravatar"; avatar_url := None;
     is_verified := verified; verification_token := None;
     verification_expires := None; reset_code_hash := None;
     reset_code_expires := None; user_created_at := 0; user_updated_at := 0;
     custom_stickers := [] |}.

Definition plain_message (id : Z) (author : option Z) : Message :=
  {| msg_id := id; msg_user_id := author; msg_content := "text";
     msg_created_at := 1000 + id; msg_reply_to_id := None;
     msg_is_deleted := 0 |}.

(** Three messages in append order; the author of the second one is not
    a user any more. *)
Definition ghost_store : Store :=
  {| users := [plain_user 1 "Ann" 1]; files := [];
     nextUserId := 2; nextFileId := 1; nextMessageId := 4;
     messages := [plain_message 1 (Some 1); plain_message 2 (Some 99);
                  plain_message 3 (Some 1)] |}.

(** Forty-one messages in append order, the second one by a user that
    does not exist any more. *)
Definition long_ghost_store : Store :=
  {| users := [plain_user 1 "Ann" 1]; files := [];
     nextUserId := 2; nextFileId := 1; nextMessageId := 42;
     messages :=
       (λ id, plain_message id (Some (if id =? 2 then 99 else 1)))
       <$> seqZ 1 41 |}.




(** Two users, Ann (1) and Bob (2), and no message. *)
Definition mention_store : Store :=
  {| users := [plain_user 1 "Ann" 1; plain_user 2 "Bob" 1];
     messages := []; files := [];
     nextUserId := 3; nextMessageId := 1; nextFileId := 1 |}.

(** The world after [n] more draws from the random source. *)
Definition advance (n : nat) (w : World) : World :=
  {| entropy := entropy w; drawn := (n + drawn w)%nat;
     clock := clock w; ticks := ticks w |}.



(** A random source that always draws 0, hence always samples
    [AAAAAAAA], and a store in which that code is taken. *)
Definition stuck_world : World :=
  {| entropy := λ _, 0%nat; drawn := 0; clock := λ _, 0; ticks := 0 |}.

Definition taken_store : Store :=
  {| users := []; messages := [];
     files := [ {| file_id := 1; file_user_id := 1; file_code := "AAAAAAAA";
                   file_object_key := "files/1/a"; file_name := "a.txt";
                   file_size := 1; file_content_type := "text/plain";
                   file_created_at := 0 |} ];
     nextUserId := 1; nextMessageId := 1; nextFileId := 2 |}.

(** The world after [n] more readings of the clock. *)
Definition later (n : nat) (w : World) : World :=
  {| entropy := entropy w; drawn := drawn w;
     clock := clock w; ticks := (n + ticks w)%nat |}.

Definition plain_sticker (n : nat) : Sticker :=
  {| sticker_id := to_hex [n]; sticker_description := "";
     sticker_preview_url := "/uploads/p.png";
     sticker_image_url := "/uploads/i.png"; sticker_created_at := 0 |}.

(** Ann with 59 stickers and Bob with 60. *)
Definition sticker_store : Store :=
  with_users mention_store
    [ with_stickers (plain_user 1 "Ann" 1) (plain_sticker <$> seq 0 59) 0;
      with_stickers (plain_user 2 "Bob" 1) (plain_sticker <$> seq 0 60) 0 ].

Definition sample_world : World :=
  {| entropy := λ n, (7 * n + 3)%nat; drawn := 0;
     clock := λ n, 1700000000000 + Z.of_nat n; ticks := 0 |}.


(** Ann on one socket and Bob on two, over [mention_store]; and the same
    with Ann not verified. *)
Definition chat_state : State :=
  {| db := mention_store;
     connectedUsers := {[ "a1"%string := 1; "b1"%string := 2; "b2"%string := 2 ]};
     userSockets := {[ 1 := ["a1"%string]; 2 := ["b1"%string; "b2"%string] ]};
     disconnectTimers := ∅ |}.


(** Nobody connected, over [mention_store]. *)
Definition idle_state : State :=
  {| db := mention_store; connectedUsers := ∅; userSockets := ∅;
     disconnectTimers := ∅ |}.

(** A tab refresh of Bob: two tabs open, both close, one reconnects
    within the grace delay, and the old timer's time passes. *)
Definition refresh_scenario : list (Z * Input) :=
  [ (1000, Connect "b1" (Some 2) chat);
    (2000, Connect "b2" (Some 2) presence);
    (3000, Disconnect "b1" 2);
    (4000, Disconnect "b2" 2);
    (5000, Connect "b3" (Some 2) presence);
    (7500, TimerFires 2) ].

(** Bob leaves for good: the timer fires with no socket left. *)
Definition leave_scenario : list (Z * Input) :=
  [ (1000, Connect "b1" (Some 2) presence);
    (4000, Disconnect "b1" 2);
    (7499, TimerFires 2);
    (7500, TimerFires 2) ].

(** A user with a live socket has no pending departure timer. *)
Definition timer_discipline (st : State) : Prop :=
  ∀ uid socks, userSockets st !! uid = Some socks → socks ≠ [] →
    disconnectTimers st !! uid = None.


(** Two stores with the same users as to id, email and stickers, in the
    same order, and the same messages, files and counters. *)
Definition same_identities (s s' : Store) : Prop :=
  user_id <$> users s' = user_id <$> users s
  ∧ user_email <$> users s' = user_email <$> users s
  ∧ custom_stickers <$> users s' = custom_stickers <$> users s
  ∧ messages s' = messages s
  ∧ files s' = files s
  ∧ nextUserId s' = nextUserId s
  ∧ nextMessageId s' = nextMessageId s
  ∧ nextFileId s' = nextFileId s.



(** The sticker that [addUserSticker] builds in the world [w]. *)
Definition new_sticker (w : World) (description previewUrl imageUrl : string)
    : Sticker :=
  {| sticker_id := to_hex (randomBytes 8 w).1;
     sticker_description := description;
     sticker_preview_url := previewUrl;
     sticker_image_url := imageUrl;
     sticker_created_at := clock w (ticks w) |}.

(** What an update of the user [id] in the world [w] comes to, whatever
    field it assigns: identities are kept; without such a user nothing
    happens; with one, one change is reported, the clock is read once
    for the update time, and the other users are as they were. *)
Definition update_outcome (s : Store) (id : Z) (w : World)
    (r : Store * Z * World) : Prop :=
  same_identities s r.1.1
  ∧ (findUser s id = None → r = ((s, 0), w))
  ∧ (∀ i u, findUser s id = Some (i, u) →
       r.1.2 = 1 ∧ r.2 = later 1 w
       ∧ (∀ id', id' ≠ id → getUserById r.1.1 id' = getUserById s id')
       ∧ ∃ u', findUser r.1.1 id = Some (i, u')
           ∧ user_updated_at u' = clock w (ticks w)
           ∧ user_created_at u' = user_created_at u).


(** A row with the profile of [u] in place of the one it carries, when
    its author is [id]. *)
Definition with_profile_of (id : Z) (u : User) (r : Row) : Row :=
  if decide (row_user_id r = Some id) then
    {| row_id := row_id r;
       row_user_id := row_user_id r;
       row_content := row_content r;
       row_created_at := row_created_at r;
       row_display_name := display_name u;
       row_email := user_email u;
       row_avatar_source := avatar_source u;
       row_avatar_url := avatar_url u;
       row_is_deleted := row_is_deleted r;
       row_reply_to_id := row_reply_to_id r |}
  else r.

(** The user that [verifyUserByToken] addresses: the first one whose
    verification token is the given one. *)
Definition findByToken (s : Store) (token : string) : option (nat * User) :=
  list_find (λ u, verification_token u = Some token) (users s).

(** Ann verified, Bob waiting with a token that lapses at 1700000000005,
    Cy waiting with a token that has lapsed. *)
Definition pending_store : Store :=
  with_users mention_store
    [ plain_user 1 "Ann" 1;
      user_with (plain_user 2 "Bob" 0) "Bob" "gravatar" None "" 0
        (Some "b0b"%string) (Some 1700000000005) None None 0;
      user_with (plain_user 3 "Cy" 0) "Cy" "gravatar" None "" 0
        (Some "cy"%string) (Some 1600000000000) None None 0 ].

(** Every connected socket is recorded in the socket set of its user. *)
Definition registry_consistent (st : State) : Prop :=
  ∀ sid uid, connectedUsers st !! sid = Some uid →
    ∃ socks, userSockets st !! uid = Some socks ∧ sid ∈ socks.

(** Every character of a string passes a test. *)
Definition all_chars (P : ascii → bool) (s : string) : Prop :=
  Forall (λ c, P c = true) (list_ascii_of_string s).



Definition is_digit (c : ascii) : bool :=
  ((48 <=? N_of_ascii c) && (N_of_ascii c <=? 57))%N.






End Props.

Import Runtime Db Server Props.

(** ** The message log *)

Section MessageLog.




(** [findMessage] is the first message of the log with the id. *)
Lemma findMessage_Some (s : Store) (messageId : Z) (i : nat) (m : Message) :
  findMessage s messageId = Some (i, m) ↔
  messages s !! i = Some m ∧ msg_id m = messageId
  ∧ ∀ j m', messages s !! j = Some m' → (j < i)%nat → msg_id m' ≠ messageId.
Proof. apply (list_find_Some (λ m', msg_id m' = messageId)). Qed.

Lemma findMessage_None (s : Store) (messageId : Z) :
  findMessage s messageId = None ↔
  ∀ m, m ∈ messages s → msg_id m ≠ messageId.
Proof.
  unfold findMessage.
  rewrite (list_find_None (λ m', msg_id m' = messageId)), Forall_forall. done.
Qed.

Lemma findMessage_after_mark (s : Store) (messageId : Z) (i : nat) (m : Message) :
  findMessage s messageId = Some (i, m) →
  findMessage (with_messages s (<[i := mark_deleted m]> (messages s))) messageId
    = Some (i, mark_deleted m).
Proof.
  intros Hfind. apply findMessage_Some in Hfind as (Hi & Hid & Hfirst).
  apply findMessage_Some. cbn [messages with_messages].
  split_and!.
  - apply list_lookup_insert_eq. by eapply lookup_lt_Some.
  - done.
  - intros j m' Hj Hlt. rewrite list_lookup_insert_ne in Hj by lia. eauto.
Qed.

Lemma deleteMessage_denied_fixpoint (s : Store) (messageId : Z)
    (who : option Z) (n : nat) :
  deleteMessage s messageId who = (s, DeleteFailed permission_denied) →
  Nat.iter n (λ st, (deleteMessage st messageId who).1) s = s.
Proof.
  intros Hdenied. induction n as [|n IH]; [done |].
  rewrite Nat.iter_succ, IH, Hdenied. done.
Qed.

(** C3. The result contract of [deleteMessage]. With no message of the
    given id it fails with [not_found]. Otherwise it addresses the first
    message [m] of the log with that id, at position [i]: when the author
    of [m] is not the requesting user it fails with [permission_denied]
    and the store is the same, however often the call is repeated; when
    [m] is already deleted it succeeds with [already] and the store, hence
    the content of [m], is the same; otherwise it succeeds, and the new
    store differs from the old one in position [i] of the log only, where
    id, author, content, timestamp and reply target are those of [m] and
    the flag is set; a second call then reports [already] and changes
    nothing. *)
Theorem deleteMessage_contract (s : Store) (messageId : Z) (who : option Z) :
  ((∀ m, m ∈ messages s → msg_id m ≠ messageId) →
     deleteMessage s messageId who = (s, DeleteFailed not_found))
  ∧ (∀ i m, findMessage s messageId = Some (i, m) →
       (msg_user_id m ≠ who →
          deleteMessage s messageId who = (s, DeleteFailed permission_denied)
          ∧ ∀ n, Nat.iter n (λ st, (deleteMessage st messageId who).1) s = s)
       ∧ (msg_user_id m = who → truthy (msg_is_deleted m) = true →
            deleteMessage s messageId who = (s, Deleted true))
       ∧ (msg_user_id m = who → truthy (msg_is_deleted m) = false →
            ∃ s' m',
              deleteMessage s messageId who = (s', Deleted false)
              ∧ messages s' = <[i := m']> (messages s)
              ∧ users s' = users s ∧ files s' = files s
              ∧ nextUserId s' = nextUserId s
              ∧ nextMessageId s' = nextMessageId s
              ∧ nextFileId s' = nextFileId s
              ∧ msg_id m' = msg_id m
              ∧ msg_user_id m' = msg_user_id m
              ∧ msg_content m' = msg_content m
              ∧ msg_created_at m' = msg_created_at m
              ∧ msg_reply_to_id m' = msg_reply_to_id m
              ∧ msg_is_deleted m' = 1
              ∧ deleteMessage s' messageId who = (s', Deleted true))).
Proof.
  split.
  - intros Hnone. apply findMessage_None in Hnone.
    unfold deleteMessage. by rewrite Hnone.
  - intros i m Hfind. split_and!.
    + intros Hother.
      assert (deleteMessage s messageId who = (s, DeleteFailed permission_denied))
        as Hdenied.
      { unfold deleteMessage. rewrite Hfind.
        destruct (decide (msg_user_id m = who)); [done | done]. }
      split; [done |]. intros n. by apply deleteMessage_denied_fixpoint.
    + intros Hauthor Hflag. unfold deleteMessage. rewrite Hfind.
      destruct (decide (msg_user_id m = who)); [| done]. by rewrite Hflag.
    + intros Hauthor Hflag.
      exists (with_messages s (<[i := mark_deleted m]> (messages s))),
        (mark_deleted m).
      split_and!; try done.
      * unfold deleteMessage. rewrite Hfind.
        destruct (decide (msg_user_id m = who)); [| done]. by rewrite Hflag.
      * unfold deleteMessage.
        rewrite (findMessage_after_mark _ _ _ _ Hfind). cbn [mark_deleted msg_user_id msg_is_deleted].
        destruct (decide (msg_user_id m = who)); [| done]. done.
Qed.

Lemma deleteMessage_contract_witness :
  deleteMessage witness_store 9 (Some 1) = (witness_store, DeleteFailed not_found)
  ∧ deleteMessage witness_store 1 (Some 2)
    = (witness_store, DeleteFailed permission_denied)
  ∧ deleteMessage witness_store 3 (Some 2) = (witness_store, Deleted true)
  ∧ ∃ s' m', deleteMessage witness_store 1 (Some 1) = (s', Deleted false)
      ∧ messages s' = <[0%nat := m']> (messages witness_store)
      ∧ msg_content m' = "hello" ∧ msg_is_deleted m' = 1.
Proof.
  split_and!.
  - apply (deleteMessage_contract witness_store 9 (Some 1)).
    intros m Hm. vm_compute in Hm.
    repeat (apply elem_of_cons in Hm as [-> | Hm]; [cbn; lia |]).
    by apply elem_of_nil in Hm.
  - eapply (deleteMessage_contract witness_store 1 (Some 2)).
    + reflexivity.
    + cbn. congruence.
  - eapply (deleteMessage_contract witness_store 3 (Some 2)); reflexivity.
  - destruct (deleteMessage_contract witness_store 1 (Some 1)) as [_ Hfound].
    destruct (Hfound 0%nat _ eq_refl) as (_ & _ & Hflip).
    destruct (Hflip eq_refl eq_refl) as (s' & m' & Hres & Hlog & Hrest).
    exists s', m'. split_and!; [done | done | apply Hrest | apply Hrest].
Defined.

(** C10. A system message, whose author is null, cannot be deleted by a
    user: when [deleteMessage] addresses a message without author, every
    request on behalf of a user id fails with [permission_denied] and
    leaves the store as it was, and the [delete-message] handler of any
    socket answers that socket alone and changes nothing. *)
Theorem deleteMessage_system_message_denied (st : State) (sid : string)
    (messageId : Z) (i : nat) (m : Message) (userId : Z) :
  findMessage (db st) messageId = Some (i, m) →
  msg_user_id m = None →
  deleteMessage (db st) messageId (Some userId)
    = (db st, DeleteFailed permission_denied)
  ∧ on_delete_message st sid userId (Some messageId)
    = (st, [Emit (ToSocket sid) (system_message CannotRecall)]).
Proof.
  intros Hfind Hsystem.
  assert (deleteMessage (db st) messageId (Some userId)
          = (db st, DeleteFailed permission_denied)) as Hdenied.
  { unfold deleteMessage. rewrite Hfind, Hsystem.
    destruct (decide (None = Some userId)); [done | done]. }
  split; [done |].
  unfold on_delete_message. rewrite Hdenied. by destruct st.
Qed.

Lemma deleteMessage_system_message_denied_witness :
  deleteMessage witness_store 2 (Some 1)
    = (witness_store, DeleteFailed permission_denied).
Proof.
  apply (deleteMessage_system_message_denied
           {| db := witness_store; connectedUsers := ∅; userSockets := ∅;
              disconnectTimers := ∅ |} "s1" 2 1%nat
           {| msg_id := 2; msg_user_id := None; msg_content := "maintenance";
              msg_created_at := 110; msg_reply_to_id := None;
              msg_is_deleted := 0 |} 1); reflexivity.
Defined.

(** The empty store is in append order, and appending and deleting keep
    the log in append order. *)
Lemma defaultStore_log_ordered : log_ordered defaultStore.
Proof. split; constructor. Qed.

Lemma saveMessage_log_ordered (s : Store) userId content createdAt replyToId :
  log_ordered s →
  log_ordered (saveMessage s userId content createdAt replyToId).1.
Proof.
  intros [Hsorted Hbelow]. unfold saveMessage, log_ordered.
  cbn [fst messages nextMessageId]. split.
  - rewrite fmap_app. cbn. induction Hbelow as [|m ms Hm Hms IH].
    + cbn. repeat constructor.
    + cbn in *. apply StronglySorted_inv in Hsorted as [Hrest Hall].
      constructor; [by apply IH |].
      apply Forall_app. split; [done |]. repeat constructor. done.
  - apply Forall_app. split.
    + eapply Forall_impl; [exact Hbelow |]. cbn. intros; lia.
    + repeat constructor. cbn. lia.
Qed.

Lemma mark_deleted_ids (ms : list Message) (i : nat) (m : Message) :
  ms !! i = Some m →
  msg_id <$> <[i := mark_deleted m]> ms = msg_id <$> ms.
Proof.
  intros Hi. rewrite list_fmap_insert. cbn [mark_deleted msg_id].
  apply list_insert_id. by rewrite list_lookup_fmap, Hi.
Qed.

Lemma deleteMessage_log_ordered (s : Store) (messageId : Z) (who : option Z) :
  log_ordered s → log_ordered (deleteMessage s messageId who).1.
Proof.
  intros [Hsorted Hbelow]. unfold deleteMessage.
  destruct (findMessage s messageId) as [[i m]|] eqn:Hfind; [| done].
  destruct (decide _); [| done]. destruct (truthy _); [done |].
  apply findMessage_Some in Hfind as (Hi & _ & _).
  unfold log_ordered. cbn [fst with_messages messages nextMessageId]. split.
  - by rewrite mark_deleted_ids.
  - apply Forall_insert; [done |]. cbn.
    exact (Forall_lookup_1 _ _ _ _ Hbelow Hi).
Qed.

End MessageLog.

(** ** Pagination *)

Section Pagination.

Lemma StronglySorted_sublist {A} (R : A → A → Prop) (l1 l2 : list A) :
  l1 `sublist_of` l2 → StronglySorted R l2 → StronglySorted R l1.
Proof.
  induction 1 as [|x l1 l2 Hsub IH|x l1 l2 Hsub IH]; intros Hsorted.
  - constructor.
  - apply StronglySorted_inv in Hsorted as [Hrest Hall].
    constructor; [by apply IH |].
    rewrite Forall_forall in Hall |- *. intros y Hy.
    apply Hall. by eapply elem_of_sublist.
  - apply StronglySorted_inv in Hsorted as [Hrest _]. by apply IH.
Qed.

Lemma page_row_id (s : Store) (msg : Message) (r : Row) :
  page_row s msg = Some r → row_id r = msg_id msg.
Proof.
  unfold page_row. intros Hrow.
  destruct (findAuthor s (msg_user_id msg)), (msg_user_id msg);
    by simplify_eq.
Qed.

Lemma page_rows_sublist (s : Store) (l : list Message) :
  row_id <$> omap (page_row s) l `sublist_of` msg_id <$> l.
Proof.
  induction l as [|msg l IH]; [done |]. cbn.
  destruct (page_row s msg) as [r|] eqn:Hrow.
  - cbn. rewrite (page_row_id _ _ _ Hrow). by constructor.
  - by constructor.
Qed.

Lemma length_omap_le {A B} (f : A → option B) (l : list A) :
  (length (omap f l) ≤ length l)%nat.
Proof.
  induction l as [|x l IH]; [done |]. cbn. destruct (f x); cbn; lia.
Qed.

Lemma length_slice_last {A} (take : Z) (l : list A) :
  0 ≤ take → (length (slice_last take l) ≤ Z.to_nat take)%nat.
Proof. intros Htake. unfold slice_last. rewrite length_drop. lia. Qed.

Lemma window_sublist (s : Store) (beforeId : option Z) :
  window s beforeId `sublist_of` messages s.
Proof. destruct beforeId; [apply sublist_filter | done]. Qed.

Lemma window_below (s : Store) (b : Z) (m : Message) :
  m ∈ window s (Some b) → msg_id m < b.
Proof. cbn. rewrite list_elem_of_filter. tauto. Qed.

Lemma getMessagesPage_unfold (s : Store) (limit : Z) (beforeId : option Z) :
  0 < limit →
  getMessagesPage s limit beforeId
    = omap (page_row s) (slice_last limit (window s beforeId)).
Proof.
  intros Hpos. unfold getMessagesPage, window.
  rewrite Z.max_r by lia.
  destruct (Z.eqb_spec limit 0); [lia |]. by destruct beforeId.
Qed.

Lemma getMessagesPage_nonpositive (s : Store) (limit : Z) (beforeId : option Z) :
  limit ≤ 0 → getMessagesPage s limit beforeId = [].
Proof.
  intros Hneg. unfold getMessagesPage. by rewrite Z.max_l by lia.
Qed.

(** Every row of a page comes from a message of the window. *)
Lemma getMessagesPage_row_source (s : Store) (limit : Z)
    (beforeId : option Z) (r : Row) :
  r ∈ getMessagesPage s limit beforeId →
  ∃ m, m ∈ window s beforeId ∧ page_row s m = Some r ∧ row_id r = msg_id m.
Proof.
  destruct (Z.le_gt_cases limit 0) as [Hneg | Hpos].
  - rewrite getMessagesPage_nonpositive by done. by intros ?%elem_of_nil.
  - rewrite getMessagesPage_unfold by lia.
    intros (m & Hm & Hrow)%list_elem_of_omap.
    exists m. split_and!; [| done | by eapply page_row_id].
    unfold slice_last in Hm.
    eapply elem_of_sublist; [exact Hm | apply sublist_drop].
Qed.

Lemma getMessagesPage_length (s : Store) (limit : Z) (beforeId : option Z) :
  Z.of_nat (length (getMessagesPage s limit beforeId)) ≤ Z.max 0 limit.
Proof.
  destruct (Z.le_gt_cases limit 0) as [Hneg | Hpos].
  - rewrite getMessagesPage_nonpositive by done. cbn. lia.
  - rewrite getMessagesPage_unfold by lia.
    pose proof (length_omap_le (page_row s) (slice_last limit (window s beforeId))).
    pose proof (length_slice_last limit (window s beforeId)). lia.
Qed.

Lemma getMessagesPage_sorted (s : Store) (limit : Z) (beforeId : option Z) :
  log_ordered s →
  StronglySorted Z.lt (row_id <$> getMessagesPage s limit beforeId).
Proof.
  intros [Hsorted _].
  destruct (Z.le_gt_cases limit 0) as [Hneg | Hpos].
  - rewrite getMessagesPage_nonpositive by done. constructor.
  - rewrite getMessagesPage_unfold by lia.
    eapply StronglySorted_sublist; [| exact Hsorted].
    etrans; [apply page_rows_sublist |].
    apply fmap_sublist. etrans; [apply sublist_drop | apply window_sublist].
Qed.

End Pagination.

Section HistoryWalk.








(** When every message of the window has a row, a page shorter than
    [limit] is the whole window. *)
Lemma short_page_is_whole_window (s : Store) (limit : Z) (beforeId : option Z) :
  0 < limit →
  Forall (λ m, is_Some (page_row s m)) (window s beforeId) →
  Z.of_nat (length (getMessagesPage s limit beforeId)) < limit →
  row_id <$> getMessagesPage s limit beforeId = msg_id <$> window s beforeId.
Proof.
  intros Hpos Hrows. rewrite getMessagesPage_unfold by done.
  assert (∀ l, Forall (λ m, is_Some (page_row s m)) l →
            row_id <$> omap (page_row s) l = msg_id <$> l) as Hall.
  { induction 1 as [|m l [r Hr] _ IH]; [done |]. cbn. rewrite Hr. cbn.
    by rewrite IH, (page_row_id _ _ _ Hr). }
  unfold slice_last.
  destruct (decide (length (window s beforeId) ≤ Z.to_nat limit)%nat) as [Hfit|Hcut].
  - replace (length (window s beforeId) - Z.to_nat limit)%nat with 0%nat by lia.
    intros _. rewrite drop_0. by apply Hall.
  - intros Hshort. exfalso.
    assert (Forall (λ m, is_Some (page_row s m))
              (drop (length (window s beforeId) - Z.to_nat limit) (window s beforeId)))
      as Hdrop by by apply Forall_drop.
    apply Hall in Hdrop.
    apply (f_equal length) in Hdrop. rewrite !length_fmap, length_drop in Hdrop.
    lia.
Qed.

(** C5 at a failing input. With three messages of which the second has
    lost its author, the page of two below cursor 4 has one row, fewer
    than the limit, and yet the message with id 1 is returned by the
    next page. *)
Lemma getMessagesPage_short_page_with_history_left :
  row_id <$> getMessagesPage ghost_store 2 (Some 4) = [3]
  ∧ Z.of_nat (length (getMessagesPage ghost_store 2 (Some 4))) < 2
  ∧ row_id <$> getMessagesPage ghost_store 2 (Some 3) = [1].
Proof. split_and!; [reflexivity | by vm_compute | reflexivity]. Qed.

(** The same through the coordinator: with forty-one messages, the
    answer to a history request below 42 carries [done] although the
    message with id 1 is still to be had below its oldest id. *)
Lemma history_request_done_with_history_left :
  let st := {| db := long_ghost_store; connectedUsers := ∅;
               userSockets := ∅; disconnectTimers := ∅ |} in
  (∃ chunk, on_history_request st "s1" (Some (Some 42))
            = [Emit (ToSocket "s1") (history_chunk chunk true 3)]
            ∧ length chunk = 39%nat)
  ∧ row_id <$> getMessagesPage (db st) HISTORY_PAGE_SIZE (Some 3) = [1].
Proof.
  split.
  - eexists. split; [vm_compute; reflexivity | reflexivity].
  - vm_compute. reflexivity.
Qed.

End HistoryWalk.

(** ** Mention resolution *)

Section MentionResolver.

Example mention_tokens_scan :
  mention_tokens "hi @Bob see @a@b and x@Ann @ @@Bob" = ["Bob"; "b"; "Ann"; "Bob"].
Proof. reflexivity. Qed.

Example mention_tokens_need_space_or_end :
  mention_tokens "@Bob, @Ann" = ["Bob,"; "Ann"].
Proof. reflexivity. Qed.



Lemma omap_cons_unfold {A B} (f : A → option B) (x : A) (l : list A) :
  omap f (x :: l) = match f x with Some y => y :: omap f l | None => omap f l end.
Proof. reflexivity. Qed.







Example extractMentions_skips_sender :
  mention_ids (extractMentions mention_store "@Ann @bob @Bob @bob" 1) = [2; 2]
  ∧ mention_ids (extractMentions mention_store "@bob @ann @bob" 1) = [2]
  ∧ mention_ids (extractMentions mention_store "@ann @bob @ann" 2) = [1].
Proof. by split_and!. Qed.

End MentionResolver.

(** ** File codes *)

Section FileCodes.

Lemma advance_advance (m n : nat) (w : World) :
  advance m (advance n w) = advance (m + n) w.
Proof. unfold advance. cbn. f_equal. lia. Qed.




Lemma randomBytes_S (n : nat) (w : World) :
  randomBytes (S n) w
  = ((entropy w (drawn w) mod 256)%nat :: (randomBytes n (advance 1 w)).1,
     (randomBytes n (advance 1 w)).2).
Proof.
  cbn [randomBytes]. unfold eff_bind, eff_ret.
  change (raw_draw w) with (entropy w (drawn w), advance 1 w).
  cbv beta iota. by destruct (randomBytes n (advance 1 w)).
Qed.

Lemma randomBytes_spec (n : nat) : ∀ w : World,
  (randomBytes n w).2 = advance n w
  ∧ length (randomBytes n w).1 = n.
Proof.
  induction n as [|n IH]; intros w.
  - split; [by destruct w | done].
  - rewrite randomBytes_S. cbn [fst snd].
    destruct (IH (advance 1 w)) as (Hworld & Hlen). split.
    + rewrite Hworld, advance_advance. f_equal. lia.
    + cbn [length]. by rewrite Hlen.
Qed.

Lemma length_to_hex (bytes : list nat) :
  String.length (to_hex bytes) = (2 * length bytes)%nat.
Proof. induction bytes as [|b rest IH]; [done |]. cbn. rewrite IH. lia. Qed.







(** With a random source stuck on one code and that code taken, the five
    attempts collide and the fallback is returned. *)
Example generateFileCode_forced_collisions :
  generateFileCode taken_store stuck_world = ("00000000"%string, advance 46 stuck_world).
Proof. reflexivity. Qed.

Example generateFileCode_first_attempt :
  generateFileCode defaultStore stuck_world = ("AAAAAAAA"%string, advance 8 stuck_world).
Proof. reflexivity. Qed.

End FileCodes.

(** ** Stickers *)

Section Stickers.

Lemma findUser_Some (s : Store) (id : Z) (i : nat) (u : User) :
  findUser s id = Some (i, u) ↔
  users s !! i = Some u ∧ user_id u = id
  ∧ ∀ j u', users s !! j = Some u' → (j < i)%nat → user_id u' ≠ id.
Proof. apply (list_find_Some (λ u', user_id u' = id)). Qed.

Lemma findUser_None (s : Store) (id : Z) :
  findUser s id = None ↔ ∀ u, u ∈ users s → user_id u ≠ id.
Proof.
  unfold findUser.
  rewrite (list_find_None (λ u', user_id u' = id)), Forall_forall. done.
Qed.

(** C9. The result contract of [addUserSticker]. With no user of the
    given id it fails with [not_found]. For the first user with that id,
    at position [i]: with 60 stickers or more it fails with [limit], and
    the store, hence the user's stickers, is the same; with fewer, it
    draws 8 random bytes for the id of the new sticker, reads the clock
    for its creation time and again for the user's update time, and
    returns the new sticker and the user's stickers followed by it; the
    new store differs from the old one in position [i] of the users
    only, where the stickers are the returned list, of at most 60
    stickers, and the update time is the second reading. *)
Theorem addUserSticker_contract (s : Store) (id : Z)
    (description previewUrl imageUrl : string) (w : World) :
  ((∀ u, u ∈ users s → user_id u ≠ id) →
     addUserSticker s id description previewUrl imageUrl w
     = ((s, AddFailed not_found), w))
  ∧ (∀ i user, findUser s id = Some (i, user) →
       (MAX_CUSTOM_STICKERS ≤ Z.of_nat (length (custom_stickers user)) →
          addUserSticker s id description previewUrl imageUrl w
          = ((s, AddFailed limit), w))
       ∧ (Z.of_nat (length (custom_stickers user)) < MAX_CUSTOM_STICKERS →
            ∃ s' sticker user',
              addUserSticker s id description previewUrl imageUrl w
              = ((s', Added sticker (custom_stickers user ++ [sticker])),
                 later 2 (advance 8 w))
              ∧ sticker_id sticker = to_hex (randomBytes 8 w).1
              ∧ String.length (sticker_id sticker) = 16%nat
              ∧ sticker_description sticker = description
              ∧ sticker_preview_url sticker = previewUrl
              ∧ sticker_image_url sticker = imageUrl
              ∧ sticker_created_at sticker = clock w (ticks w)
              ∧ users s' = <[i := user']> (users s)
              ∧ custom_stickers user' = custom_stickers user ++ [sticker]
              ∧ user_updated_at user' = clock w (S (ticks w))
              ∧ user_id user' = id
              ∧ display_name user' = display_name user
              ∧ is_verified user' = is_verified user
              ∧ Z.of_nat (length (custom_stickers user')) ≤ MAX_CUSTOM_STICKERS
              ∧ messages s' = messages s ∧ files s' = files s
              ∧ nextUserId s' = nextUserId s
              ∧ nextMessageId s' = nextMessageId s
              ∧ nextFileId s' = nextFileId s)).
Proof.
  split.
  - intros Hnone. apply findUser_None in Hnone.
    unfold addUserSticker. by rewrite Hnone.
  - intros i user Hfind. unfold addUserSticker. rewrite Hfind. split.
    + intros Hfull.
      destruct (Z.geb_spec (Z.of_nat (length (custom_stickers user)))
                  MAX_CUSTOM_STICKERS); [done | lia].
    + intros Hroom.
      destruct (Z.geb_spec (Z.of_nat (length (custom_stickers user)))
                  MAX_CUSTOM_STICKERS); [lia |].
      unfold eff_bind, eff_ret.
      destruct (randomBytes_spec 8 w) as (Hworld & Hlen).
      destruct (randomBytes 8 w) as [bytes w1]. cbn [fst snd] in *. subst w1.
      change (Date_now (advance 8 w))
        with (clock w (ticks w), later 1 (advance 8 w)).
      cbv beta iota.
      change (Date_now (later 1 (advance 8 w)))
        with (clock w (S (ticks w)), later 2 (advance 8 w)).
      cbv beta iota.
      apply findUser_Some in Hfind as (_ & Hid & _).
      eexists _, _, _. split; [reflexivity |].
      cbn [sticker_id sticker_description sticker_preview_url
           sticker_image_url sticker_created_at users with_users
           custom_stickers with_stickers user_updated_at user_id
           display_name is_verified messages files nextUserId
           nextMessageId nextFileId].
      split_and!; try done.
      * rewrite length_to_hex, Hlen. done.
      * cbn [custom_stickers with_stickers]. rewrite length_app.
        cbn [length]. lia.
Qed.

Lemma addUserSticker_contract_witness :
  addUserSticker sticker_store 7 "wave" "/p.png" "/i.png" sample_world
    = ((sticker_store, AddFailed not_found), sample_world)
  ∧ addUserSticker sticker_store 2 "wave" "/p.png" "/i.png" sample_world
    = ((sticker_store, AddFailed limit), sample_world)
  ∧ ∃ s' sticker user',
      (addUserSticker sticker_store 1 "wave" "/p.png" "/i.png" sample_world).1
        = (s', Added sticker
                 (custom_stickers (with_stickers (plain_user 1 "Ann" 1)
                                     (plain_sticker <$> seq 0 59) 0)
                  ++ [sticker]))
      ∧ users s' = <[0%nat := user']> (users sticker_store)
      ∧ Z.of_nat (length (custom_stickers user')) ≤ MAX_CUSTOM_STICKERS.
Proof.
  split_and!.
  - apply (addUserSticker_contract sticker_store 7 "wave" "/p.png" "/i.png"
             sample_world).
    intros u Hu. vm_compute in Hu.
    repeat (apply elem_of_cons in Hu as [-> | Hu]; [cbn; lia |]).
    by apply elem_of_nil in Hu.
  - eapply (addUserSticker_contract sticker_store 2 "wave" "/p.png" "/i.png"
              sample_world).
    + reflexivity.
    + vm_compute. discriminate.
  - destruct (addUserSticker_contract sticker_store 1 "wave" "/p.png" "/i.png"
                sample_world) as [_ Hfound].
    destruct (Hfound 0%nat _ eq_refl) as [_ Hadd].
    destruct Hadd as (s' & sticker & user' & Hres & Hrest).
    { vm_compute. reflexivity. }
    exists s', sticker, user'. rewrite Hres. split_and!; [done | apply Hrest..].
Defined.

(** The sixty-first sticker is refused and nothing changes. *)
Example addUserSticker_sixty_first :
  addUserSticker sticker_store 2 "wave" "/p.png" "/i.png" sample_world
  = ((sticker_store, AddFailed limit), sample_world).
Proof. reflexivity. Qed.

Example addUserSticker_sixtieth :
  ∃ s' sticker stickers,
    (addUserSticker sticker_store 1 "wave" "/p.png" "/i.png" sample_world).1
      = (s', Added sticker stickers)
    ∧ length stickers = 60%nat
    ∧ sticker_id sticker = "030a11181f262d34"%string.
Proof. eexists _, _, _. split_and!; reflexivity. Qed.

End Stickers.

(** ** Inbound messages *)

Section ChatMessages.





Example chat_message_too_long_is_private :
  ∀ text, MAX_MESSAGE_LENGTH < str_length (trim text) →
    on_chat_message chat_state "a1" 1 (DataString text) sample_world
    = ((chat_state, [Emit (ToSocket "a1") (system_message TooLong)]),
       sample_world).
Proof.
  intros text Hlong. unfold on_chat_message, chat_content.
  destruct (decide (trim text = EmptyString)) as [Hempty | _].
  { rewrite Hempty in Hlong. by vm_compute in Hlong. }
  destruct (Z.gtb_spec (str_length (trim text)) MAX_MESSAGE_LENGTH); [done | lia].
Qed.

End ChatMessages.

(** ** Presence *)

Section Presence.

Lemma or_null_nonzero (v : Z) : v ≠ 0 → or_null (Some v) = Some v.
Proof.
  intros Hv. cbn. unfold truthy. by destruct (Z.eqb_spec v 0).
Qed.

(** What a connection of an existing user does, by whether it is the
    first one. *)
Lemma on_connection_registered (st : State) (sid : string) (u : User)
    (mode : Mode) :
  user_id u ≠ 0 →
  getUserById (db st) (user_id u) = Some u →
  let uid := user_id u in
  let socks := default [] (userSockets st !! uid) in
  let st' :=
    {| db := db st;
       connectedUsers := <[sid := uid]> (connectedUsers st);
       userSockets := <[uid := set_add sid socks]> (userSockets st);
       disconnectTimers := delete uid (disconnectTimers st) |} in
  on_connection st sid (Some uid) mode
  = (st',
     [Emit (ToSocket sid) (initial_payload st' u mode)]
     ++ (if bool_decide (length socks = 0%nat)
            && negb (bool_decide (is_Some (disconnectTimers st !! uid)))
         then [Emit (ToOthers sid) (system_message (Joined (display_name u)));
               Emit ToAll (roster_update (buildRoster st'))]
         else [])
     ++ [Emit ToAll (online_count (size (userSockets st')))]).
Proof.
  intros Hid Huser. cbn zeta. unfold on_connection.
  rewrite or_null_nonzero by done. rewrite Huser. done.
Qed.

(** C2. The presence state machine of a user [u] that exists, at any
    state of the server. (1) A connection while [u] has no socket and no
    pending timer sends exactly one joined notice, to the other sockets,
    followed by a roster update. (2) A connection while [u] has a socket
    sends the new socket its initial payload and everybody the online
    count, and no joined notice, leave notice or roster update. (3) A
    disconnect that leaves [u] a socket has no effect at all outside the
    maps and starts no timer. (4) A disconnect that leaves [u] no socket
    has no effect either: it records a timer due 3500 ms later, unless
    one is pending already, which stays, and keeps [u] in the map of
    online users. (5) A connection while the timer is
    pending removes the timer and sends no joined notice, leave notice or
    roster update, and the callback of the removed timer, whenever it
    would have run, does nothing. *)
Theorem presence_flap_suppression (st : State) (u : User) (sid : string)
    (mode : Mode) (now : Z) :
  let uid := user_id u in
  let connected := on_connection st sid (Some uid) mode in
  let dropped := on_disconnect st now sid uid in
  uid ≠ 0 →
  getUserById (db st) uid = Some u →
  (default [] (userSockets st !! uid) = [] →
   disconnectTimers st !! uid = None →
     filter is_presence_notice connected.2
       = [Emit (ToOthers sid) (system_message (Joined (display_name u)));
          Emit ToAll (roster_update (buildRoster connected.1))]
     ∧ userSockets connected.1 !! uid = Some [sid]
     ∧ disconnectTimers connected.1 !! uid = None)
  ∧ (∀ socks, userSockets st !! uid = Some socks → socks ≠ [] →
       connected.2
         = [Emit (ToSocket sid) (initial_payload connected.1 u mode);
            Emit ToAll (online_count (size (userSockets connected.1)))]
       ∧ filter is_presence_notice connected.2 = []
       ∧ userSockets connected.1 !! uid = Some (set_add sid socks)
       ∧ size (userSockets connected.1) = size (userSockets st))
  ∧ (∀ socks, userSockets st !! uid = Some socks →
       set_delete sid socks ≠ [] →
       dropped.2 = []
       ∧ disconnectTimers dropped.1 = disconnectTimers st
       ∧ userSockets dropped.1 !! uid = Some (set_delete sid socks))
  ∧ (∀ socks, userSockets st !! uid = Some socks →
       set_delete sid socks = [] →
       dropped.2 = []
       ∧ disconnectTimers dropped.1 !! uid
         = Some (default (now + DEPARTURE_DELAY) (disconnectTimers st !! uid))
       ∧ DEPARTURE_DELAY = 3500
       ∧ userSockets dropped.1 !! uid = Some [])
  ∧ (∀ due, disconnectTimers st !! uid = Some due →
       filter is_presence_notice connected.2 = []
       ∧ disconnectTimers connected.1 !! uid = None
       ∧ ∀ t, departure_timeout connected.1 t uid = (connected.1, [])).
Proof.
  intros uid connected dropped Hid Huser.
  pose proof (on_connection_registered st sid u mode Hid Huser) as Hconn.
  cbn zeta in Hconn. fold uid in Hconn.
  subst connected. rewrite Hconn. cbn [fst snd userSockets disconnectTimers].
  split_and!.
  - intros Hnone Htimer. rewrite Hnone, Htimer.
    rewrite bool_decide_eq_true_2 by done.
    rewrite bool_decide_eq_false_2 by (by intros [? ?]).
    split_and!; [by destruct mode | | by apply lookup_delete_eq].
    rewrite lookup_insert_eq. done.
  - intros socks Hsocks Hlive. rewrite Hsocks. cbn [default].
    rewrite (bool_decide_eq_false_2 (length socks = 0%nat))
      by (by destruct socks).
    cbn [andb app].
    split_and!; [done | by destruct mode | by rewrite lookup_insert_eq |].
    apply map_size_insert_Some. by rewrite Hsocks.
  - intros socks Hsocks Hremaining. subst dropped. unfold on_disconnect.
    cbn [userSockets]. rewrite Hsocks.
    rewrite bool_decide_eq_false_2 by (by destruct (set_delete sid socks)).
    cbn [fst snd disconnectTimers userSockets].
    by rewrite lookup_insert_eq.
  - intros socks Hsocks Hlast. subst dropped. unfold on_disconnect.
    cbn [userSockets]. rewrite Hsocks, Hlast.
    rewrite bool_decide_eq_true_2 by done.
    unfold scheduleDeparture. cbn [disconnectTimers].
    destruct (disconnectTimers st !! uid) as [due|] eqn:Htimer;
      cbn [fst snd disconnectTimers userSockets default];
      by rewrite ?lookup_insert_eq.
  - intros due Hdue. rewrite Hdue.
    rewrite (bool_decide_eq_true_2 (is_Some (Some due))) by eauto.
    rewrite andb_false_r. cbn [app].
    split_and!; [by destruct mode | by apply lookup_delete_eq |].
    intros t. unfold departure_timeout. cbn [disconnectTimers].
    by rewrite lookup_delete_eq.
Qed.

Lemma presence_flap_suppression_witness :
  filter is_presence_notice (on_connection idle_state "b1" (Some 2) chat).2
    = [Emit (ToOthers "b1") (system_message (Joined "Bob"));
       Emit ToAll (roster_update [2])]
  ∧ filter is_presence_notice (on_connection chat_state "b3" (Some 2) chat).2 = []
  ∧ (on_disconnect chat_state 4000 "b1" 2).2 = []
  ∧ disconnectTimers (on_disconnect chat_state 4000 "a1" 1).1 !! 1 = Some 7500.
Proof.
  split_and!.
  - destruct (presence_flap_suppression idle_state (plain_user 2 "Bob" 1)
                "b1" chat 0) as (Hfirst & _); [done | reflexivity |].
    destruct Hfirst as (Hnotices & _); [reflexivity | reflexivity |].
    exact Hnotices.
  - destruct (presence_flap_suppression chat_state (plain_user 2 "Bob" 1)
                "b3" chat 0) as (_ & Hsecond & _); [done | reflexivity |].
    destruct (Hsecond ["b1"; "b2"]%string) as (_ & Hnotices & _);
      [reflexivity | discriminate |].
    exact Hnotices.
  - destruct (presence_flap_suppression chat_state (plain_user 2 "Bob" 1)
                "b1" chat 4000) as (_ & _ & Hdrop & _); [done | reflexivity |].
    destruct (Hdrop ["b1"; "b2"]%string) as (Hnone & _);
      [reflexivity | vm_compute; discriminate |].
    exact Hnone.
  - destruct (presence_flap_suppression chat_state (plain_user 1 "Ann" 1)
                "a1" chat 4000) as (_ & _ & _ & Hlast & _); [done | reflexivity |].
    destruct (Hlast ["a1"]%string) as (_ & Htimer & _);
      [reflexivity | reflexivity |].
    exact Htimer.
Defined.

(** The handlers keep the timer discipline, which holds when nobody is
    connected: in the states the server reaches, the timer recorded by
    the last disconnect of a user is always a new one. *)
Lemma idle_timer_discipline (d : Store) :
  timer_discipline
    {| db := d; connectedUsers := ∅; userSockets := ∅; disconnectTimers := ∅ |}.
Proof. intros uid socks Hsocks. cbn in Hsocks. by rewrite lookup_empty in Hsocks. Qed.

Lemma set_delete_nonempty (sid : string) (socks : list string) :
  set_delete sid socks ≠ [] → socks ≠ [].
Proof. by destruct socks. Qed.

Lemma step_timer_discipline (st : State) (now : Z) (i : Input) :
  timer_discipline st → timer_discipline (step st now i).1.
Proof.
  intros Hinv. destruct i as [sid session mode | sid userId | userId];
    cbn [step].
  - unfold on_connection. destruct (or_null session) as [userId|]; [| done].
    destruct (getUserById (db st) userId) as [user|]; [| done].
    cbn [fst]. intros uid socks. cbn [userSockets disconnectTimers].
    destruct (decide (uid = user_id user)) as [-> | Hother].
    + intros _ _. apply lookup_delete_eq.
    + rewrite lookup_insert_ne, lookup_delete_ne by done. apply Hinv.
  - unfold on_disconnect. cbn [userSockets].
    destruct (userSockets st !! userId) as [socksOfUser|] eqn:Hsocks;
      [| exact Hinv].
    destruct (bool_decide (length (set_delete sid socksOfUser) = 0%nat))
      eqn:Hlast; cbn [fst].
    + apply bool_decide_eq_true_1 in Hlast.
      unfold scheduleDeparture. cbn [disconnectTimers].
      destruct (disconnectTimers st !! userId) as [due|] eqn:Htimer;
        intros uid socks; cbn [userSockets disconnectTimers];
        (destruct (decide (uid = userId)) as [-> | Hother];
         [rewrite lookup_insert_eq; intros [= <-] Hne;
          by destruct (set_delete sid socksOfUser)
         | rewrite ?lookup_insert_ne by done; apply Hinv]).
    + apply bool_decide_eq_false_1 in Hlast.
      intros uid socks. cbn [userSockets disconnectTimers].
      destruct (decide (uid = userId)) as [-> | Hother].
      * intros _ _. eapply Hinv; [exact Hsocks |].
        apply (set_delete_nonempty sid). by destruct (set_delete sid socksOfUser).
      * rewrite lookup_insert_ne by done. apply Hinv.
  - unfold departure_timeout.
    destruct (disconnectTimers st !! userId) as [due|] eqn:Htimer; [| done].
    destruct (now <? due); [done |]. cbn [userSockets].
    destruct (userSockets st !! userId) as [[|sid rest]|] eqn:Hsocks; cbn [fst];
      intros uid socks; cbn [userSockets disconnectTimers];
      (destruct (decide (uid = userId)) as [-> | Hother];
       [rewrite ?lookup_delete_eq; try done; intros _ _; apply lookup_delete_eq
       | rewrite ?lookup_delete_ne by done; apply Hinv]).
Qed.

Lemma run_timer_discipline (inputs : list (Z * Input)) : ∀ st : State,
  timer_discipline st → timer_discipline (run st inputs).1.
Proof.
  induction inputs as [|[now i] rest IH]; intros st Hinv; [done |].
  cbn [run]. pose proof (step_timer_discipline st now i Hinv) as Hstep.
  destruct (step st now i) as [st1 out1]. specialize (IH st1 Hstep).
  by destruct (run st1 rest) as [st2 out2].
Qed.

(** A refresh with a reconnect inside the grace delay: one joined notice
    for the whole episode and no leave notice. *)
Example refresh_emits_one_join :
  let out := (run idle_state refresh_scenario).2 in
  filter is_joined out = [Emit (ToOthers "b1") (system_message (Joined "Bob"))]
  ∧ filter is_departed out = [].
Proof. split; vm_compute; reflexivity. Qed.

(** Without a reconnect the timer, once due, sends one leave notice and
    then the roster without the user; before it is due nothing happens. *)
Example leave_emits_one_notice :
  filter is_presence_notice (run idle_state leave_scenario).2
  = [Emit (ToOthers "b1") (system_message (Joined "Bob"));
     Emit ToAll (roster_update [2]);
     Emit ToAll (system_message (Departed "Bob"));
     Emit ToAll (roster_update [])].
Proof. vm_compute. reflexivity. Qed.

End Presence.

(** ** Strings: trimming and case *)

Section Strings.

















Lemma length_trim_start (s : string) :
  (String.length (trim_start s) ≤ String.length s)%nat.
Proof. induction s as [|c r IH]; [done |]. cbn. destruct (is_space c); cbn; lia. Qed.

Lemma length_trim_end (s : string) :
  (String.length (trim_end s) ≤ String.length s)%nat.
Proof.
  induction s as [|c r IH]; [done |]. cbn.
  destruct (trim_end r); [destruct (is_space c) |]; cbn in *; lia.
Qed.




End Strings.

(** ** Stickers: removal *)

Section StickerRemoval.

Lemma findUser_after_update (s : Store) (id : Z) (i : nat) (u u' : User) :
  findUser s id = Some (i, u) → user_id u' = id →
  findUser (with_users s (<[i := u']> (users s))) id = Some (i, u').
Proof.
  intros Hfind Hid. apply findUser_Some in Hfind as (Hi & _ & Hfirst).
  apply findUser_Some. cbn [users with_users]. split_and!.
  - apply list_lookup_insert_eq. by eapply lookup_lt_Some.
  - done.
  - intros j v Hj Hlt. rewrite list_lookup_insert_ne in Hj by lia. eauto.
Qed.

Lemma addUserSticker_success (s : Store) (id : Z)
    (description previewUrl imageUrl : string) (w : World)
    (i : nat) (user : User) :
  findUser s id = Some (i, user) →
  Z.of_nat (length (custom_stickers user)) < MAX_CUSTOM_STICKERS →
  let sticker := new_sticker w description previewUrl imageUrl in
  let stickers := custom_stickers user ++ [sticker] in
  addUserSticker s id description previewUrl imageUrl w
  = ((with_users s
        (<[i := with_stickers user stickers (clock w (S (ticks w)))]> (users s)),
      Added sticker stickers),
     later 2 (advance 8 w)).
Proof.
  intros Hfind Hroom. cbn zeta. unfold addUserSticker. rewrite Hfind.
  destruct (Z.geb_spec (Z.of_nat (length (custom_stickers user)))
              MAX_CUSTOM_STICKERS); [lia |].
  unfold eff_bind, eff_ret, new_sticker.
  destruct (randomBytes_spec 8 w) as (Hworld & _).
  destruct (randomBytes 8 w) as [bytes w1]. cbn [fst snd] in *. subst w1.
  reflexivity.
Qed.

Lemma removeUserSticker_success (s : Store) (id : Z) (stickerId : string)
    (w : World) (i : nat) (user : User) (j : nat) (st : Sticker) :
  findUser s id = Some (i, user) →
  list_find (λ x, sticker_id x = stickerId) (custom_stickers user)
    = Some (j, st) →
  removeUserSticker s id stickerId w
  = ((with_users s
        (<[i := with_stickers user (delete j (custom_stickers user))
                  (clock w (ticks w))]> (users s)),
      Removed),
     later 1 w).
Proof.
  intros Hfind Hsticker. unfold removeUserSticker.
  rewrite Hfind, Hsticker. reflexivity.
Qed.



(** X2. Adding a sticker and removing it again gives back the stickers
    the user had, in their order, provided the random id of the new
    sticker is not the id of one of them; between the two calls
    [getUserStickers] returns the collection that [addUserSticker]
    returned, and after them the users differ from the original ones in
    that user's update time only. *)
Theorem addUserSticker_then_remove (s : Store) (id : Z)
    (description previewUrl imageUrl : string) (w : World)
    (i : nat) (user : User) :
  findUser s id = Some (i, user) →
  Z.of_nat (length (custom_stickers user)) < MAX_CUSTOM_STICKERS →
  (∀ st, st ∈ custom_stickers user →
     sticker_id st ≠ to_hex (randomBytes 8 w).1) →
  ∃ s1 sticker stickers w1 s2,
    addUserSticker s id description previewUrl imageUrl w
      = ((s1, Added sticker stickers), w1)
    ∧ getUserStickers s1 id = stickers
    ∧ stickers = custom_stickers user ++ [sticker]
    ∧ removeUserSticker s1 id (sticker_id sticker) w1
      = ((s2, Removed), later 1 w1)
    ∧ getUserStickers s2 id = custom_stickers user
    ∧ users s2
      = <[i := with_stickers user (custom_stickers user) (clock w1 (ticks w1))]>
          (users s)
    ∧ same_identities s s2.
Proof.
  intros Hfind Hroom Hfresh.
  pose proof Hfind as (Hi & Hid & _)%findUser_Some.
  pose proof (addUserSticker_success s id description previewUrl imageUrl w
                i user Hfind Hroom) as Hadd. cbn zeta in Hadd.
  set (sticker := new_sticker w description previewUrl imageUrl) in *.
  set (user1 := with_stickers user (custom_stickers user ++ [sticker])
                  (clock w (S (ticks w)))) in *.
  set (s1 := with_users s (<[i := user1]> (users s))) in *.
  assert (findUser s1 id = Some (i, user1)) as Hfind1
    by (by apply (findUser_after_update s id i user user1)).
  assert (list_find (λ x, sticker_id x = sticker_id sticker)
            (custom_stickers user1)
          = Some (length (custom_stickers user), sticker)) as Hnew.
  { apply (list_find_Some (λ x, sticker_id x = sticker_id sticker)).
    cbn [user1 custom_stickers with_stickers]. split_and!.
    - by rewrite list_lookup_middle.
    - done.
    - intros k st' Hk Hlt. rewrite lookup_app_l in Hk by done.
      apply Hfresh. by eapply list_elem_of_lookup_2. }
  pose proof (removeUserSticker_success s1 id (sticker_id sticker)
                (later 2 (advance 8 w)) i user1 _ _ Hfind1 Hnew) as Hremove.
  assert (delete (length (custom_stickers user)) (custom_stickers user1)
          = custom_stickers user) as Hback.
  { cbn [user1 custom_stickers with_stickers].
    rewrite (delete_middle (custom_stickers user) [] sticker).
    by rewrite app_nil_r. }
  rewrite Hback in Hremove.
  eexists s1, sticker, _, _, _. split_and!; [exact Hadd | | reflexivity
    | exact Hremove | | |].
  - unfold getUserStickers. by rewrite Hfind1.
  - unfold getUserStickers.
    by rewrite (findUser_after_update s1 id i user1 _ Hfind1).
  - cbn [users with_users s1]. by rewrite list_insert_insert_eq.
  - unfold same_identities.
    cbn [users with_users s1 messages files nextUserId nextMessageId nextFileId].
    rewrite list_insert_insert_eq, !list_fmap_insert.
    cbn [user_id user_email custom_stickers with_stickers user1].
    split_and!; try done; apply list_insert_id;
      by rewrite list_lookup_fmap, Hi.
Qed.

Lemma addUserSticker_then_remove_witness :
  ∃ s1 sticker stickers w1 s2,
    addUserSticker sticker_store 1 "wave" "/p.png" "/i.png" sample_world
      = ((s1, Added sticker stickers), w1)
    ∧ removeUserSticker s1 1 (sticker_id sticker) w1 = ((s2, Removed), later 1 w1)
    ∧ length (getUserStickers s2 1) = 59%nat.
Proof.
  destruct (addUserSticker_then_remove sticker_store 1 "wave" "/p.png" "/i.png"
              sample_world 0%nat
              (with_stickers (plain_user 1 "Ann" 1) (plain_sticker <$> seq 0 59) 0))
    as (s1 & sticker & stickers & w1 & s2 & Hadd & _ & _ & Hremove & Hget & _).
  - reflexivity.
  - by vm_compute.
  - intros st Hst. apply list_elem_of_fmap in Hst as (n & -> & Hn).
    apply elem_of_seq in Hn. cbn [plain_sticker sticker_id].
    do 59 (destruct n as [|n]; [by vm_compute |]). lia.
  - exists s1, sticker, stickers, w1, s2. split_and!; [done | done |].
    rewrite Hget. reflexivity.
Defined.

End StickerRemoval.

(** ** Files *)

Section Files.










Lemma sort_newest_first_perm (l : list FileRecord) :
  sort_newest_first l ≡ₚ l.
Proof.
  assert (∀ x l', insert_newest_first x l' ≡ₚ x :: l') as Hinsert.
  { intros x l'. induction l' as [|y rest IH]; [done |]. cbn.
    destruct (_ <=? _); [done |]. rewrite IH. apply Permutation_swap. }
  induction l as [|x rest IH]; [done |]. cbn.
  by rewrite Hinsert, IH.
Qed.

Lemma insert_newest_first_sorted (x : FileRecord) (l : list FileRecord) :
  StronglySorted (λ a b, file_created_at b ≤ file_created_at a) l →
  StronglySorted (λ a b, file_created_at b ≤ file_created_at a)
    (insert_newest_first x l).
Proof.
  induction 1 as [|y rest Hsorted IH Hall]; cbn.
  - repeat constructor.
  - destruct (Z.leb_spec (file_created_at y) (file_created_at x)) as [Hle | Hgt].
    + constructor; [by constructor |].
      constructor; [done |].
      eapply Forall_impl; [exact Hall |]. cbn. intros; lia.
    + constructor; [exact IH |].
      assert (∀ l', Forall (λ b, file_created_at b ≤ file_created_at y) l' →
                Forall (λ b, file_created_at b ≤ file_created_at y)
                  (insert_newest_first x l')) as Hkeep.
      { induction 1 as [|z l' Hz Hl' IHl']; cbn.
        - repeat constructor. lia.
        - destruct (_ <=? _); repeat constructor; try done; lia. }
      by apply Hkeep.
Qed.

Lemma insert_newest_first_filter (t : Z) (x : FileRecord) (l : list FileRecord) :
  filter (λ f, file_created_at f = t) (insert_newest_first x l)
  = filter (λ f, file_created_at f = t) (x :: l).
Proof.
  induction l as [|y rest IH]; [done |]. cbn.
  destruct (Z.leb_spec (file_created_at y) (file_created_at x)) as [Hle | Hgt];
    [done |].
  rewrite !filter_cons in *.
  destruct (decide (file_created_at y = t)) as [Hy | Hy];
    destruct (decide (file_created_at x = t)) as [Hx | Hx];
    try lia; by rewrite IH.
Qed.

(** X5. [getFilesByUser] returns the files of the user and no others,
    each as often as it is stored, ordered from the newest to the
    oldest; files with the same creation time keep the order in which
    they were saved. *)
Theorem getFilesByUser_newest_first (s : Store) (userId : Z) :
  getFilesByUser s userId
    ≡ₚ filter (λ file, file_user_id file = userId) (files s)
  ∧ (∀ file, file ∈ getFilesByUser s userId ↔
       file ∈ files s ∧ file_user_id file = userId)
  ∧ StronglySorted (λ a b, file_created_at b ≤ file_created_at a)
      (getFilesByUser s userId)
  ∧ ∀ t, filter (λ f, file_created_at f = t) (getFilesByUser s userId)
         = filter (λ f, file_created_at f = t)
             (filter (λ file, file_user_id file = userId) (files s)).
Proof.
  unfold getFilesByUser.
  set (l := filter (λ file, file_user_id file = userId) (files s)).
  split_and!.
  - apply sort_newest_first_perm.
  - intros file. rewrite (sort_newest_first_perm l). unfold l.
    rewrite list_elem_of_filter. tauto.
  - clearbody l. induction l as [|x rest IH]; [constructor |].
    by apply insert_newest_first_sorted.
  - intros t. clearbody l. induction l as [|x rest IH]; [done |].
    cbn [sort_newest_first foldr]. rewrite insert_newest_first_filter.
    rewrite !filter_cons. fold (sort_newest_first rest). by rewrite IH.
Qed.

End Files.

(** ** Users *)

Section Users.

Lemma findUser_other_after_update (s : Store) (id id' : Z) (i : nat)
    (u u' : User) :
  findUser s id = Some (i, u) → user_id u' = id → id' ≠ id →
  getUserById (with_users s (<[i := u']> (users s))) id' = getUserById s id'.
Proof.
  intros Hfind Hid Hother. apply findUser_Some in Hfind as (Hi & Hu & _).
  assert (i < length (users s))%nat as Hlen by (by eapply lookup_lt_Some).
  unfold getUserById. apply option_eq. intros v. rewrite !fmap_Some.
  split; intros ([j v'] & Hj & ->); exists (j, v'); (split; [| done]);
    apply findUser_Some in Hj as (Hj & Hv & Hfirst); apply findUser_Some;
    cbn [users with_users] in *.
  - destruct (decide (j = i)) as [-> | Hne].
    { rewrite list_lookup_insert_eq in Hj by done. simplify_eq. }
    rewrite list_lookup_insert_ne in Hj by done.
    split_and!; [done | done |].
    intros k x Hk Hlt. destruct (decide (k = i)) as [-> | Hki].
    + simplify_eq. congruence.
    + apply (Hfirst k x); [by rewrite list_lookup_insert_ne | done].
  - assert (j ≠ i) as Hne by (intros ->; simplify_eq; congruence).
    split_and!; [by rewrite list_lookup_insert_ne | done |].
    intros k x Hk Hlt. destruct (decide (k = i)) as [-> | Hki].
    + rewrite list_lookup_insert_eq in Hk by done. simplify_eq. congruence.
    + rewrite list_lookup_insert_ne in Hk by done. eauto.
Qed.

Lemma getUserById_Some (s : Store) (id : Z) (u : User) :
  getUserById s id = Some u ↔ ∃ i, findUser s id = Some (i, u).
Proof.
  unfold getUserById. rewrite fmap_Some. split.
  - intros ([i u'] & Hfind & ->). by exists i.
  - intros (i & Hfind). by exists (i, u).
Qed.





End Users.

(** ** Users: updates *)

Section UserUpdates.

Lemma same_identities_refl (s : Store) : same_identities s s.
Proof. by repeat split. Qed.

Lemma update_outcome_absent (s : Store) (id : Z) (w : World) :
  findUser s id = None → update_outcome s id w ((s, 0), w).
Proof.
  intros Hnone. split_and!; [apply same_identities_refl | done |].
  intros i u Hfind. congruence.
Qed.

Lemma update_outcome_present (s : Store) (id : Z) (w : World) (i : nat)
    (u u' : User) :
  findUser s id = Some (i, u) →
  user_id u' = user_id u → user_email u' = user_email u →
  custom_stickers u' = custom_stickers u →
  user_created_at u' = user_created_at u →
  user_updated_at u' = clock w (ticks w) →
  update_outcome s id w ((with_users s (<[i := u']> (users s)), 1), later 1 w).
Proof.
  intros Hfind Hid Hemail Hstickers Hcreated Hupdated.
  pose proof Hfind as (Hi & Hu & _)%findUser_Some.
  split_and!.
  - unfold same_identities.
    cbn [fst users with_users messages files nextUserId nextMessageId nextFileId].
    rewrite !list_fmap_insert, Hid, Hemail, Hstickers.
    split_and!; try done; apply list_insert_id; by rewrite list_lookup_fmap, Hi.
  - congruence.
  - intros j v Hfind'. rewrite Hfind in Hfind'. injection Hfind' as <- <-.
    cbn [fst snd]. split_and!; [done | done | |].
    + intros id' Hother.
      apply (findUser_other_after_update s id id' i u u'); congruence.
    + exists u'. split_and!; [| done | done].
      apply (findUser_after_update s id i u u'); congruence.
Qed.

(** X7. The five updates of a user ([updateUserProfile],
    [updateUserVerification], [updateUserPassword],
    [setPasswordResetCode], [clearPasswordResetCode]) share one
    discipline. Without a user of the id they report 0 changes and
    leave the store and the clock alone. With one, they report 1 change
    and read the clock once for the update time of the first user with
    the id; no user's id, email or stickers change, nor the order or
    number of users, the messages, the files or the counters, and every
    other user is found as before. The fields they assign are the ones
    named below them, with an absent or empty avatar source read as
    [gravatar] and an empty avatar URL or token as null. *)
Theorem user_updates_outcome (s : Store) (id : Z) (w : World) :
  (∀ name source url,
     let r := updateUserProfile s id name source url w in
     update_outcome s id w r
     ∧ ∀ i u, findUser s id = Some (i, u) →
         ∃ u', getUserById r.1.1 id = Some u'
           ∧ display_name u' = name
           ∧ avatar_source u' = or_default source "gravatar"
           ∧ avatar_url u' = or_null_string url
           ∧ password_hash u' = password_hash u
           ∧ is_verified u' = is_verified u
           ∧ verification_token u' = verification_token u)
  ∧ (∀ verified token expires,
       let r := updateUserVerification s id verified token expires w in
       update_outcome s id w r
       ∧ ∀ i u, findUser s id = Some (i, u) →
           ∃ u', getUserById r.1.1 id = Some u'
             ∧ is_verified u' = (if verified then 1 else 0)
             ∧ verification_token u' = or_null_string token
             ∧ verification_expires u' = or_null expires
             ∧ display_name u' = display_name u
             ∧ password_hash u' = password_hash u)
  ∧ (∀ hash,
       let r := updateUserPassword s id hash w in
       update_outcome s id w r
       ∧ ∀ i u, findUser s id = Some (i, u) →
           ∃ u', getUserById r.1.1 id = Some u'
             ∧ password_hash u' = hash
             ∧ display_name u' = display_name u
             ∧ is_verified u' = is_verified u
             ∧ reset_code_hash u' = reset_code_hash u)
  ∧ (∀ codeHash expires,
       let r := setPasswordResetCode s id codeHash expires w in
       update_outcome s id w r
       ∧ ∀ i u, findUser s id = Some (i, u) →
           ∃ u', getUserById r.1.1 id = Some u'
             ∧ reset_code_hash u' = codeHash
             ∧ reset_code_expires u' = expires
             ∧ password_hash u' = password_hash u)
  ∧ (let r := clearPasswordResetCode s id w in
     update_outcome s id w r
     ∧ ∀ i u, findUser s id = Some (i, u) →
         ∃ u', getUserById r.1.1 id = Some u'
           ∧ reset_code_hash u' = None
           ∧ reset_code_expires u' = None
           ∧ password_hash u' = password_hash u).
Proof.
  split_and!; intros;
    repeat match goal with r := _ |- _ => subst r end; cbn zeta;
    unfold updateUserProfile, updateUserVerification, updateUserPassword,
      setPasswordResetCode, clearPasswordResetCode;
    (destruct (findUser s id) as [[i u]|] eqn:Hfind;
     [| split; [by apply update_outcome_absent | intros ? ? [=]]]);
    unfold eff_bind, eff_ret;
    change (Date_now w) with (clock w (ticks w), later 1 w); cbv beta iota;
    (split; [by apply (update_outcome_present s id w i u) |]);
    intros i' u0 [= <- <-]; cbn [fst];
    pose proof Hfind as (_ & Hid & _)%findUser_Some;
    (eexists; split;
     [apply getUserById_Some; exists i;
      by apply (findUser_after_update s id i u) | by split_and!]).
Qed.

Lemma user_updates_outcome_witness :
  ∃ u', getUserById
          (updateUserProfile mention_store 2 "Robert" (Some EmptyString) None
             sample_world).1.1 2 = Some u'
    ∧ display_name u' = "Robert"%string
    ∧ avatar_source u' = "gravatar"%string.
Proof.
  destruct (user_updates_outcome mention_store 2 sample_world) as (Hprofile & _).
  destruct (Hprofile "Robert"%string (Some EmptyString) None) as [_ Hfields].
  destruct (Hfields 1%nat (plain_user 2 "Bob" 1) eq_refl)
    as (u' & Hget & Hname & Hsource & _).
  by exists u'.
Defined.

End UserUpdates.

(** ** Read-time joins *)

Section ReadTimeJoins.

Lemma findAuthor_after_update (s : Store) (id : Z) (i : nat) (u u' : User)
    (author : option Z) :
  findUser s id = Some (i, u) → user_id u' = id →
  findAuthor (with_users s (<[i := u']> (users s))) author
  = if decide (author = Some id) then Some u' else findAuthor s author.
Proof.
  intros Hfind Hid. destruct author as [a|]; cbn [findAuthor].
  - destruct (decide (Some a = Some id)) as [[= ->] | Hne].
    + apply getUserById_Some. exists i.
      by apply (findUser_after_update s id i u u').
    + apply (findUser_other_after_update s id a i u u'); congruence.
  - by destruct (decide (None = Some id)).
Qed.

Lemma page_row_after_update (s : Store) (id : Z) (i : nat) (u u' : User)
    (m : Message) :
  findUser s id = Some (i, u) → user_id u' = id →
  page_row (with_users s (<[i := u']> (users s))) m
  = with_profile_of id u' <$> page_row s m.
Proof.
  intros Hfind Hid. unfold page_row.
  rewrite (findAuthor_after_update s id i u u' _ Hfind Hid).
  assert (getUserById s id = Some u) as Huser
    by (apply getUserById_Some; eauto).
  destruct (decide (msg_user_id m = Some id)) as [Hauthor | Hother].
  - rewrite Hauthor. cbn [findAuthor]. rewrite Huser. cbn.
    unfold with_profile_of. cbn. by rewrite decide_True.
  - destruct (findAuthor s (msg_user_id m)) as [a|];
      destruct (msg_user_id m) as [uid|] eqn:Hm; cbn; try done;
      unfold with_profile_of; cbn; by rewrite decide_False.
Qed.

Lemma getMessagesPage_after_update (s : Store) (id : Z) (i : nat) (u u' : User)
    (limit : Z) (beforeId : option Z) :
  findUser s id = Some (i, u) → user_id u' = id →
  getMessagesPage (with_users s (<[i := u']> (users s))) limit beforeId
  = with_profile_of id u' <$> getMessagesPage s limit beforeId.
Proof.
  intros Hfind Hid. unfold getMessagesPage. cbn [messages with_users].
  destruct (Z.max 0 limit =? 0); [done |].
  generalize (slice_last (Z.max 0 limit)
                match beforeId with
                | Some b => filter (λ msg, msg_id msg < b) (messages s)
                | None => messages s
                end) as l.
  induction l as [|m rest IH]; [done |].
  rewrite !omap_cons_unfold, (page_row_after_update s id i u u' m Hfind Hid).
  destruct (page_row s m) as [r|]; cbn; by rewrite IH.
Qed.

(** X8. Messages store the author's id only, and a page joins the
    profile when it is read: after [updateUserProfile] of an existing
    user, every page is the page of before with the new display name and
    avatar in the rows of that author: the same messages, ids and
    contents, the rows of other authors untouched. The payload made from
    a row of that author names the new display name, and so does the
    reply preview of [getMessageById]. *)
Theorem renamed_author_in_history (s : Store) (id : Z) (name : string)
    (source url : option string) (w : World) (i : nat) (u : User)
    (limit : Z) (beforeId : option Z) :
  findUser s id = Some (i, u) →
  let s' := (updateUserProfile s id name source url w).1.1 in
  ∃ u', getUserById s' id = Some u'
    ∧ display_name u' = name
    ∧ avatar_source u' = or_default source "gravatar"
    ∧ getMessagesPage s' limit beforeId
      = with_profile_of id u' <$> getMessagesPage s limit beforeId
    ∧ row_id <$> getMessagesPage s' limit beforeId
      = row_id <$> getMessagesPage s limit beforeId
    ∧ row_content <$> getMessagesPage s' limit beforeId
      = row_content <$> getMessagesPage s limit beforeId
    ∧ (∀ row, row ∈ getMessagesPage s' limit beforeId →
         row_user_id row = Some id →
         row_display_name row = name
         ∧ p_author (formatMessagePayload row) = name)
    ∧ (∀ mid view, getMessageById s' mid = Some view →
         msg_user_id (view_message view) = Some id →
         view_display_name view = name).
Proof.
  intros Hfind. cbn zeta. unfold updateUserProfile. rewrite Hfind.
  unfold eff_bind, eff_ret.
  change (Date_now w) with (clock w (ticks w), later 1 w). cbv beta iota.
  cbn [fst].
  set (u' := user_with u name _ _ _ _ _ _ _ _ _).
  pose proof Hfind as (_ & Hid & _)%findUser_Some.
  assert (user_id u' = id) as Hid' by done.
  pose proof (getMessagesPage_after_update s id i u u' limit beforeId Hfind Hid')
    as Hpage.
  exists u'. split_and!; [| done | done | exact Hpage | | | |].
  - apply getUserById_Some. exists i.
    by apply (findUser_after_update s id i u u').
  - rewrite Hpage, <- list_fmap_compose. apply list_fmap_ext.
    intros k r _. cbn. unfold with_profile_of. by destruct (decide _).
  - rewrite Hpage, <- list_fmap_compose. apply list_fmap_ext.
    intros k r _. cbn. unfold with_profile_of. by destruct (decide _).
  - intros row Hrow Hauthor. rewrite Hpage in Hrow.
    apply list_elem_of_fmap in Hrow as (r & -> & Hr).
    unfold with_profile_of in *.
    destruct (decide (row_user_id r = Some id)) as [Hr' | Hr'];
      [| by cbn in Hauthor].
    cbn. split; [done |]. unfold formatMessagePayload. cbn.
    rewrite Hr'. by destruct (truthy (row_is_deleted r)).
  - intros mid view. unfold getMessageById, findMessage.
    cbn [messages with_users].
    destruct (list_find _ (messages s)) as [[j m]|]; [| done].
    intros [= <-]. cbn. intros Hauthor.
    rewrite (findAuthor_after_update s id i u u' _ Hfind Hid').
    by rewrite decide_True.
Qed.

Lemma renamed_author_in_history_witness :
  row_display_name
    <$> getMessagesPage
          (updateUserProfile ghost_store 1 "Anna" None None sample_world).1.1
          10 None
  = ["Anna"; "Anna"]%string.
Proof.
  destruct (renamed_author_in_history ghost_store 1 "Anna" None None sample_world
              0%nat (plain_user 1 "Ann" 1) 10 None eq_refl)
    as (u' & _ & Hname & _ & Hpage & _).
  rewrite Hpage, <- Hname. reflexivity.
Defined.

End ReadTimeJoins.

(** ** Email verification *)

Section Verification.

Lemma findByToken_Some (s : Store) (token : string) (i : nat) (u : User) :
  findByToken s token = Some (i, u) ↔
  users s !! i = Some u ∧ verification_token u = Some token
  ∧ ∀ j u', users s !! j = Some u' → (j < i)%nat →
      verification_token u' ≠ Some token.
Proof. apply (list_find_Some (λ u', verification_token u' = Some token)). Qed.

Lemma findByToken_None (s : Store) (token : string) :
  findByToken s token = None ↔
  ∀ u, u ∈ users s → verification_token u ≠ Some token.
Proof.
  unfold findByToken.
  rewrite (list_find_None (λ u', verification_token u' = Some token)),
    Forall_forall. done.
Qed.

(** What [verifyUserByToken] does when it verifies the user at [i]. *)
Lemma verifyUserByToken_success (s : Store) (token : string) (w : World)
    (i : nat) (u : User) :
  findByToken s token = Some (i, u) →
  truthy (is_verified u) = false →
  (∀ e, or_null (verification_expires u) = Some e → clock w (ticks w) ≤ e) →
  let reads :=
    match or_null (verification_expires u) with
    | Some _ => 2%nat
    | None => 1%nat
    end in
  let u' :=
    user_with u (display_name u) (avatar_source u) (avatar_url u)
      (password_hash u) 1 None None (reset_code_hash u) (reset_code_expires u)
      (clock w (pred reads + ticks w)) in
  verifyUserByToken s token w
  = ((with_users s (<[i := u']> (users s)), Verified false u'), later reads w).
Proof.
  intros Hfind Hflag Hvalid. cbn zeta. unfold verifyUserByToken.
  fold (findByToken s token). rewrite Hfind, Hflag.
  unfold eff_bind, eff_ret.
  destruct (or_null (verification_expires u)) as [e|] eqn:He.
  - change (Date_now w) with (clock w (ticks w), later 1 w). cbv beta iota.
    destruct (Z.ltb_spec e (clock w (ticks w))) as [Hlt | _].
    { specialize (Hvalid e eq_refl). lia. }
    reflexivity.
  - reflexivity.
Qed.

(** X9. The result contract of [verifyUserByToken]. With no user
    holding the token it fails with [not_found]. For the first user
    holding it: when the user is verified already it succeeds with
    [already] and changes nothing; when the expiry time is set and lies
    before the clock reading it fails with [expired] and changes
    nothing; otherwise (an expiry of null or 0 never lapses, and the
    expiry instant itself is still valid) it sets the flag, clears token
    and expiry and returns the updated user. The link is single-use:
    when no other user holds the same token, a second call with the
    token fails with [not_found]. *)
Theorem verifyUserByToken_contract (s : Store) (token : string) (w : World) :
  ((∀ u, u ∈ users s → verification_token u ≠ Some token) →
     verifyUserByToken s token w = ((s, VerifyFailed not_found None), w))
  ∧ (∀ i u, findByToken s token = Some (i, u) →
       (truthy (is_verified u) = true →
          verifyUserByToken s token w = ((s, Verified true u), w))
       ∧ (truthy (is_verified u) = false →
          ∀ e, or_null (verification_expires u) = Some e →
            e < clock w (ticks w) →
            verifyUserByToken s token w
            = ((s, VerifyFailed expired (Some u)), later 1 w))
       ∧ (truthy (is_verified u) = false →
          (∀ e, or_null (verification_expires u) = Some e →
             clock w (ticks w) ≤ e) →
          ∃ s' u' w',
            verifyUserByToken s token w = ((s', Verified false u'), w')
            ∧ users s' = <[i := u']> (users s)
            ∧ is_verified u' = 1
            ∧ verification_token u' = None
            ∧ verification_expires u' = None
            ∧ user_id u' = user_id u
            ∧ user_email u' = user_email u
            ∧ display_name u' = display_name u
            ∧ password_hash u' = password_hash u
            ∧ custom_stickers u' = custom_stickers u
            ∧ same_identities s s'
            ∧ ((∀ j u2, users s !! j = Some u2 → j ≠ i →
                  verification_token u2 ≠ Some token) →
               ∀ w2, verifyUserByToken s' token w2
                     = ((s', VerifyFailed not_found None), w2)))).
Proof.
  split.
  - intros Hnone. apply findByToken_None in Hnone.
    unfold verifyUserByToken. fold (findByToken s token). by rewrite Hnone.
  - intros i u Hfind. split_and!.
    + intros Hflag. unfold verifyUserByToken. fold (findByToken s token).
      by rewrite Hfind, Hflag.
    + intros Hflag e He Hlapsed. unfold verifyUserByToken.
      fold (findByToken s token). rewrite Hfind, Hflag, He.
      unfold eff_bind, eff_ret.
      change (Date_now w) with (clock w (ticks w), later 1 w). cbv beta iota.
      by destruct (Z.ltb_spec e (clock w (ticks w))); [| lia].
    + intros Hflag Hvalid.
      rewrite (verifyUserByToken_success s token w i u Hfind Hflag Hvalid).
      pose proof Hfind as (Hi & Htoken & Hfirst)%findByToken_Some.
      eexists _, _, _. split; [reflexivity |].
      cbn [users with_users is_verified verification_token verification_expires
           user_id user_email display_name password_hash custom_stickers
           user_with].
      split_and!; try done.
      * unfold same_identities.
        cbn [users with_users messages files nextUserId nextMessageId nextFileId].
        rewrite !list_fmap_insert.
        cbn [user_id user_email custom_stickers user_with].
        split_and!; try done; apply list_insert_id;
          by rewrite list_lookup_fmap, Hi.
      * intros Hunique w2. unfold verifyUserByToken.
        match goal with |- context [list_find ?P ?l] =>
          assert (list_find P l = None) as ->; [| done] end.
        apply (list_find_None (λ x, verification_token x = Some token)).
        apply Forall_lookup. intros j x Hj. cbn [users with_users] in Hj.
        destruct (decide (j = i)) as [-> | Hne].
        -- rewrite list_lookup_insert_eq in Hj by (by eapply lookup_lt_Some).
           by injection Hj as <-.
        -- rewrite list_lookup_insert_ne in Hj by done. eauto.
Qed.

End Verification.

Section VerificationRoute.

Lemma verifyUserByToken_contract_witness :
  (∃ s' u', (verifyUserByToken pending_store "b0b" sample_world).1
            = (s', Verified false u')
     ∧ is_verified u' = 1
     ∧ ∀ w2, verifyUserByToken s' "b0b" w2
             = ((s', VerifyFailed not_found None), w2))
  ∧ (verifyUserByToken pending_store "cy" sample_world).1.2
    = VerifyFailed expired (Some (user_with (plain_user 3 "Cy" 0) "Cy" "gravatar"
                                    None "" 0 (Some "cy"%string)
                                    (Some 1600000000000) None None 0))
  ∧ (verifyUserByToken pending_store "nope" sample_world).1.2
    = VerifyFailed not_found None.
Proof.
  destruct (verifyUserByToken_contract pending_store "b0b" sample_world)
    as [_ Hbob].
  destruct (verifyUserByToken_contract pending_store "cy" sample_world)
    as [_ Hcy].
  destruct (verifyUserByToken_contract pending_store "nope" sample_world)
    as [Hnone _].
  split_and!.
  - destruct (Hbob 1%nat _ eq_refl) as (_ & _ & Hverify).
    destruct Hverify as (s' & u' & w' & Hres & _ & Hflag & _ & _ & _ & _ & _
                         & _ & _ & _ & Hsingle).
    + reflexivity.
    + intros e [= <-]. by vm_compute.
    + exists s', u'. rewrite Hres. split_and!; [done | done |].
      apply Hsingle. intros j u2 Hj Hne.
      destruct j as [|[|[|j]]]; [| done | | done]; by injection Hj as <-.
  - destruct (Hcy 2%nat _ eq_refl) as (_ & Hlapsed & _).
    erewrite Hlapsed; [reflexivity | reflexivity | reflexivity | by vm_compute].
  - rewrite Hnone; [reflexivity |].
    intros u Hu. vm_compute in Hu.
    repeat (apply elem_of_cons in Hu as [-> | Hu]; [by cbn |]).
    by apply elem_of_nil in Hu.
Defined.




End VerificationRoute.

(** ** Messages: lookups, deletion and history *)

Section MessageViews.

Lemma sorted_lt_lookup_inj (ids : list Z) (i j : nat) (x : Z) :
  StronglySorted Z.lt ids → ids !! i = Some x → ids !! j = Some x → i = j.
Proof.
  intros Hsorted. revert i j. induction Hsorted as [|y rest Hrest IH Hall];
    intros i j Hi Hj; [by rewrite lookup_nil in Hi |].
  rewrite Forall_forall in Hall.
  destruct i as [|i], j as [|j]; cbn in *; simplify_eq; try done.
  - apply list_elem_of_lookup_2, Hall in Hj. lia.
  - apply list_elem_of_lookup_2, Hall in Hi. lia.
  - f_equal. by apply IH.
Qed.

Lemma log_ordered_unique (s : Store) (i j : nat) (m m' : Message) :
  log_ordered s → messages s !! i = Some m → messages s !! j = Some m' →
  msg_id m = msg_id m' → i = j ∧ m = m'.
Proof.
  intros [Hsorted _] Hi Hj Hid.
  assert (i = j) as ->.
  { apply (sorted_lt_lookup_inj (msg_id <$> messages s) i j (msg_id m));
      [done | by rewrite list_lookup_fmap, Hi
       | by rewrite list_lookup_fmap, Hj, Hid]. }
  split; [done | congruence].
Qed.

Lemma findMessage_of_member (s : Store) (i : nat) (m : Message) :
  log_ordered s → messages s !! i = Some m →
  findMessage s (msg_id m) = Some (i, m).
Proof.
  intros Hordered Hi. apply findMessage_Some. split_and!; [done | done |].
  intros j m' Hj Hlt Hid.
  destruct (log_ordered_unique s i j m m' Hordered Hi Hj) as [-> _]; [done | lia].
Qed.

Lemma page_row_fields (s : Store) (msg : Message) (r : Row) :
  page_row s msg = Some r →
  row_id r = msg_id msg ∧ row_user_id r = msg_user_id msg
  ∧ row_content r = msg_content msg
  ∧ row_is_deleted r = msg_is_deleted msg
  ∧ row_reply_to_id r = msg_reply_to_id msg
  ∧ row_created_at r = msg_created_at msg
  ∧ (msg_user_id msg = None ∨ is_Some (findAuthor s (msg_user_id msg))).
Proof.
  unfold page_row. intros Hrow.
  destruct (findAuthor s (msg_user_id msg)) as [a|] eqn:Ha,
    (msg_user_id msg) as [uid|] eqn:Hm; simplify_eq; cbn;
    split_and!; eauto.
Qed.

(** X11. A message whose author is no longer a user can still be looked
    up by id, as [getMessageById] does for reply previews: the lookup
    returns the message with the label of an unknown user, an empty
    email and the default avatar source. No page ever contains a row
    for it. The log is in append order. *)
Theorem orphan_message_lookup_and_page (s : Store) (i : nat) (m : Message)
    (uid : Z) (limit : Z) (beforeId : option Z) :
  log_ordered s →
  messages s !! i = Some m →
  msg_user_id m = Some uid →
  getUserById s uid = None →
  getMessageById s (msg_id m)
  = Some {| view_message := m; view_display_name := UNKNOWN_USER;
            view_email := EmptyString; view_avatar_source := "gravatar";
            view_avatar_url := None |}
  ∧ ∀ row, row ∈ getMessagesPage s limit beforeId → row_id row ≠ msg_id m.
Proof.
  intros Hordered Hi Hauthor Hgone. split.
  - unfold getMessageById.
    rewrite (findMessage_of_member s i m Hordered Hi), Hauthor.
    cbn [findAuthor]. by rewrite Hgone.
  - intros row Hrow Hid.
    apply getMessagesPage_row_source in Hrow as (m' & Hm' & Hrow & Hid').
    assert (m' ∈ messages s) as (j & Hj)%list_elem_of_lookup
      by (eapply elem_of_sublist; [exact Hm' | apply window_sublist]).
    destruct (log_ordered_unique s i j m m' Hordered Hi Hj) as [_ <-];
      [congruence |].
    apply page_row_fields in Hrow as (_ & _ & _ & _ & _ & _ & [Hnone | Hsome]).
    + congruence.
    + rewrite Hauthor in Hsome. cbn in Hsome. rewrite Hgone in Hsome.
      by destruct Hsome.
Qed.

Lemma ghost_store_ordered : log_ordered ghost_store.
Proof.
  split; cbn.
  - repeat (constructor; [| repeat constructor; lia]). constructor.
  - repeat constructor; cbn; lia.
Qed.

Lemma orphan_message_lookup_and_page_witness :
  view_display_name <$> getMessageById ghost_store 2 = Some UNKNOWN_USER
  ∧ ∀ row, row ∈ getMessagesPage ghost_store 10 None → row_id row ≠ 2.
Proof.
  destruct (orphan_message_lookup_and_page ghost_store 1%nat
              (plain_message 2 (Some 99)) 99 10 None) as [Hview Hpage].
  - apply ghost_store_ordered.
  - reflexivity.
  - reflexivity.
  - reflexivity.
  - split; [| exact Hpage].
    change 2 with (msg_id (plain_message 2 (Some 99))). by rewrite Hview.
Defined.

Lemma insert_as_fmap (s : Store) (i : nat) (m md : Message) :
  log_ordered s → messages s !! i = Some m → msg_id md = msg_id m →
  <[i := md]> (messages s)
  = (λ x, if decide (msg_id x = msg_id m ∧ msg_user_id x = msg_user_id m)
          then md else x) <$> messages s.
Proof.
  intros Hordered Hi Hid. apply list_eq. intros j.
  rewrite list_lookup_fmap.
  destruct (decide (i = j)) as [<- | Hne].
  - rewrite list_lookup_insert_eq by (by eapply lookup_lt_Some).
    rewrite Hi. cbn. by rewrite decide_True.
  - rewrite list_lookup_insert_ne by done.
    destruct (messages s !! j) as [x|] eqn:Hj; [| done]. cbn.
    destruct (decide (msg_id x = msg_id m ∧ msg_user_id x = msg_user_id m))
      as [[Hsame _] | ?]; [| done].
    by destruct (log_ordered_unique s i j m x Hordered Hi Hj).
Qed.

Lemma page_ids_after_edit (s s' : Store) (g : Message → Message)
    (limit : Z) (beforeId : option Z) :
  (∀ x, msg_id (g x) = msg_id x) →
  (∀ x, msg_user_id (g x) = msg_user_id x) →
  users s' = users s →
  messages s' = g <$> messages s →
  row_id <$> getMessagesPage s' limit beforeId
  = row_id <$> getMessagesPage s limit beforeId.
Proof.
  intros Hid Hwho Husers Hlog. unfold getMessagesPage.
  destruct (Z.max 0 limit =? 0); [done |].
  assert (∀ l : list Message, row_id <$> omap (page_row s') (g <$> l)
               = row_id <$> omap (page_row s) l) as Hrows.
  { induction l as [|x l IH]; [done |]. cbn.
    assert (findAuthor s' (msg_user_id (g x)) = findAuthor s (msg_user_id x))
      as Hauthor.
    { rewrite Hwho. unfold findAuthor, getUserById, findUser.
      by rewrite Husers. }
    assert (row_id <$> page_row s' (g x) = row_id <$> page_row s x) as Hrow.
    { unfold page_row. rewrite Hauthor, Hwho, Hid.
      by destruct (findAuthor s (msg_user_id x)), (msg_user_id x). }
    destruct (page_row s' (g x)), (page_row s x); cbn in *; simplify_eq;
      [by f_equal | done]. }
  rewrite Hlog.
  assert (∀ b (l : list Message),
            filter (λ msg, msg_id msg < b) (g <$> l)
            = g <$> filter (λ msg, msg_id msg < b) l) as Hfilter.
  { intros b l. induction l as [|x l IH]; [done |].
    rewrite fmap_cons, !filter_cons, Hid.
    destruct (decide (msg_id x < b)); by rewrite ?fmap_cons, IH. }
  unfold slice_last.
  destruct beforeId as [b|]; rewrite ?Hfilter, length_fmap, <- fmap_drop;
    apply Hrows.
Qed.

Lemma deleteMessage_Deleted_inv (s : Store) (mid : Z) (who : option Z)
    (already : bool) :
  (deleteMessage s mid who).2 = Deleted already →
  ∃ i m md,
    findMessage s mid = Some (i, m)
    ∧ msg_user_id m = who
    ∧ messages (deleteMessage s mid who).1 = <[i := md]> (messages s)
    ∧ msg_id md = mid ∧ msg_user_id md = who
    ∧ msg_content md = msg_content m
    ∧ truthy (msg_is_deleted md) = true
    ∧ users (deleteMessage s mid who).1 = users s.
Proof.
  unfold deleteMessage.
  destruct (findMessage s mid) as [[i m]|] eqn:Hfind; [| done].
  pose proof Hfind as (Hi & Hid & _)%findMessage_Some.
  destruct (decide (msg_user_id m = who)) as [Hwho | ?]; [| done].
  destruct (truthy (msg_is_deleted m)) eqn:Hflag; cbn; intros _.
  - exists i, m, m. split_and!; try done. by rewrite list_insert_id.
  - by exists i, m, (mark_deleted m).
Qed.

(** X12. After a delete request of the author went through (the first
    time or again), the history shows the message as recalled: in every
    page of the new store the row with that id is flagged, and the
    payload made from it is marked deleted, names the author, carries
    the recall notice in place of the text, and carries no reply
    target. The pages hold the same message ids as before. The log is
    in append order. *)
Theorem deleted_message_in_history (s : Store) (mid userId : Z)
    (already : bool) (limit : Z) (beforeId : option Z) :
  log_ordered s →
  (deleteMessage s mid (Some userId)).2 = Deleted already →
  let s' := (deleteMessage s mid (Some userId)).1 in
  row_id <$> getMessagesPage s' limit beforeId
    = row_id <$> getMessagesPage s limit beforeId
  ∧ ∀ row, row ∈ getMessagesPage s' limit beforeId → row_id row = mid →
      truthy (row_is_deleted row) = true
      ∧ formatMessagePayload row
        = {| p_id := mid; p_userId := Some userId;
             p_author := row_display_name row;
             p_text := (row_display_name row ++ " 撤回了一条消息")%string;
             p_time := row_created_at row;
             p_isDeleted := true; p_replyToId := None; p_mentions := [] |}.
Proof.
  intros Hordered Hresult. cbn zeta.
  pose proof (deleteMessage_log_ordered s mid (Some userId) Hordered) as Hordered'.
  destruct (deleteMessage_Deleted_inv s mid (Some userId) already Hresult)
    as (i & m & md & Hfind & Hwho & Hlog & Hid & Hwho' & _ & Hflag & Husers).
  pose proof Hfind as (Hi & Hmid & _)%findMessage_Some.
  set (s' := (deleteMessage s mid (Some userId)).1) in *.
  split.
  - apply (page_ids_after_edit s s'
             (λ x, if decide (msg_id x = msg_id m
                              ∧ msg_user_id x = msg_user_id m)
                   then md else x)).
    + intros x. cbn beta. case_decide as Hsame; [| done].
      destruct Hsame. congruence.
    + intros x. cbn beta. case_decide as Hsame; [| done].
      destruct Hsame. congruence.
    + done.
    + rewrite Hlog. apply insert_as_fmap; [done | done | congruence].
  - intros row Hrow Hrowid.
    apply getMessagesPage_row_source in Hrow as (m' & Hm' & Hrow & Hid').
    assert (m' ∈ messages s') as (j & Hj)%list_elem_of_lookup
      by (eapply elem_of_sublist; [exact Hm' | apply window_sublist]).
    assert (messages s' !! i = Some md) as Hi'.
    { rewrite Hlog. apply list_lookup_insert_eq. by eapply lookup_lt_Some. }
    destruct (log_ordered_unique s' i j md m' Hordered' Hi' Hj) as [_ <-];
      [congruence |].
    apply page_row_fields in Hrow as (Hr1 & Hr2 & _ & Hr4 & _).
    rewrite Hr4. split; [done |].
    unfold formatMessagePayload. rewrite Hr2, Hwho', Hr4, Hflag. congruence.
Qed.

Lemma deleted_message_in_history_witness :
  let s' := (deleteMessage ghost_store 3 (Some 1)).1 in
  row_id <$> getMessagesPage s' 10 None = [1; 3]
  ∧ ∀ row, row ∈ getMessagesPage s' 10 None → row_id row = 3 →
      p_isDeleted (formatMessagePayload row) = true
      ∧ p_replyToId (formatMessagePayload row) = None.
Proof.
  cbn zeta.
  destruct (deleted_message_in_history ghost_store 3 1 false 10 None
              ghost_store_ordered eq_refl) as [Hids Hrows].
  split; [by rewrite Hids |].
  intros row Hrow Hid. destruct (Hrows row Hrow Hid) as [_ ->]. done.
Defined.

End MessageViews.

(** ** The handlers of a socket *)

Section Handlers.

Lemma formatMessagePayload_id (row : Row) :
  p_id (formatMessagePayload row) = row_id row.
Proof.
  unfold formatMessagePayload.
  by destruct (row_user_id row), (truthy (row_is_deleted row)).
Qed.



(** X14. The [history-request] handler. A request that is not an
    object, whose cursor is not an integer, or whose cursor is not
    positive, is silent. Any other request is answered by exactly one
    chunk, sent to the requesting socket alone, of at most 40 messages;
    every message of the chunk is older than the cursor; the chunk
    without a message is flagged as the last one and gives the cursor
    back; otherwise the cursor it gives back is the id of its first
    message, and it is flagged as the last one exactly when it has
    fewer than 40 messages. When the log is in append order the ids of
    the chunk grow strictly, so that the cursor given back is the
    smallest id of the chunk. *)
Theorem history_request_contract (st : State) (sid : string)
    (params : option (option Z)) :
  ((∀ b, params = Some (Some b) → b ≤ 0) →
     on_history_request st sid params = [])
  ∧ ∀ b, params = Some (Some b) → 0 < b →
      ∃ msgs done oldest,
        on_history_request st sid params
        = [Emit (ToSocket sid) (history_chunk msgs done oldest)]
        ∧ msgs = formatMessagePayload
                 <$> getMessagesPage (db st) HISTORY_PAGE_SIZE (Some b)
        ∧ (length msgs ≤ 40)%nat
        ∧ Forall (λ p, p_id p < b) msgs
        ∧ (msgs = [] → done = true ∧ oldest = b)
        ∧ (∀ p rest, msgs = p :: rest →
             oldest = p_id p ∧ done = bool_decide (length msgs < 40)%nat)
        ∧ (log_ordered (db st) →
             StronglySorted Z.lt (p_id <$> msgs)
             ∧ Forall (λ p, oldest ≤ p_id p) msgs).
Proof.
  split.
  - intros Hinvalid. unfold on_history_request.
    destruct params as [[b|]|]; try done.
    specialize (Hinvalid b eq_refl).
    by destruct (Z.leb_spec b 0); [| lia].
  - intros b -> Hpos. unfold on_history_request.
    destruct (Z.leb_spec b 0) as [? | _]; [lia |]. cbn zeta.
    set (rows := getMessagesPage (db st) HISTORY_PAGE_SIZE (Some b)).
    assert (Forall (λ r, row_id r < b) rows) as Hbelow.
    { apply Forall_forall. intros r Hr.
      apply getMessagesPage_row_source in Hr as (m & Hm & _ & ->).
      by apply window_below in Hm. }
    assert (Forall (λ p, p_id p < b) (formatMessagePayload <$> rows)) as Hbelow'.
    { apply Forall_fmap. eapply Forall_impl; [exact Hbelow |].
      intros r Hr. cbn. by rewrite formatMessagePayload_id. }
    assert (length (formatMessagePayload <$> rows) ≤ 40)%nat as Hlen.
    { rewrite length_fmap.
      pose proof (getMessagesPage_length (db st) HISTORY_PAGE_SIZE (Some b)).
      fold rows in H. unfold HISTORY_PAGE_SIZE in H. lia. }
    assert (log_ordered (db st) →
            StronglySorted Z.lt (p_id <$> (formatMessagePayload <$> rows)))
      as Hsorted.
    { intros Hordered. rewrite <- list_fmap_compose.
      erewrite list_fmap_ext;
        [apply (getMessagesPage_sorted _ HISTORY_PAGE_SIZE (Some b) Hordered) |].
      intros ? r _. cbn. apply formatMessagePayload_id. }
    destruct (formatMessagePayload <$> rows) as [|first rest] eqn:Hmsgs.
    + exists [], true, b. split_and!; try done.
      intros _. split; constructor.
    + exists (first :: rest), (Z.of_nat (length rows) <? HISTORY_PAGE_SIZE),
        (p_id first).
      split_and!; try done.
      * intros p rest' [= <- <-]. split; [done |].
        rewrite <- Hmsgs, length_fmap. unfold HISTORY_PAGE_SIZE.
        destruct (Z.ltb_spec (Z.of_nat (length rows)) 40).
        -- by rewrite bool_decide_eq_true_2 by lia.
        -- by rewrite bool_decide_eq_false_2 by lia.
      * intros Hordered. specialize (Hsorted Hordered).
        split; [done |]. cbn in Hsorted.
        apply StronglySorted_inv in Hsorted as [_ Hall].
        constructor; [lia |].
        rewrite Forall_fmap in Hall. eapply Forall_impl; [exact Hall |].
        cbn. intros; lia.
Qed.

Lemma history_request_contract_witness :
  ∃ msgs done oldest,
    on_history_request (with_db idle_state ghost_store) "s1" (Some (Some 3))
    = [Emit (ToSocket "s1") (history_chunk msgs done oldest)]
    ∧ Forall (λ p, p_id p < 3) msgs.
Proof.
  destruct (history_request_contract (with_db idle_state ghost_store) "s1"
              (Some (Some 3))) as [_ Hvalid].
  destruct (Hvalid 3 eq_refl ltac:(lia))
    as (msgs & done & oldest & Hout & _ & _ & Hbelow & _).
  by exists msgs, done, oldest.
Defined.




End Handlers.

(** ** The roster, the online count and the departure timer *)

Section Departures.

Lemma buildRoster_elem (st : State) (id : Z) :
  id ∈ buildRoster st
  ↔ is_Some (getUserById (db st) id) ∧ is_Some (userSockets st !! id).
Proof.
  unfold buildRoster. rewrite list_elem_of_filter, list_elem_of_fmap.
  split.
  - intros [Huser ([k socks] & -> & Hin%elem_of_map_to_list)]. eauto.
  - intros [Huser [socks Hsocks]]. split; [done |].
    exists (id, socks). split; [done |]. by apply elem_of_map_to_list.
Qed.

(** X16. The roster against the online count. The roster lists no user
    twice; a user is on it exactly when the user exists in the store and
    has an entry in the map of sockets, be its socket set empty, as it
    is during the grace delay; so the roster is never longer than the
    online count, which counts the entries of the map, and it is
    shorter as soon as the map has an entry for an id that is no user. *)
Theorem roster_and_online_count (st : State) :
  NoDup (buildRoster st)
  ∧ (∀ id, id ∈ buildRoster st
           ↔ is_Some (getUserById (db st) id)
             ∧ is_Some (userSockets st !! id))
  ∧ (length (buildRoster st) ≤ size (userSockets st))%nat
  ∧ (∀ id, is_Some (userSockets st !! id) → getUserById (db st) id = None →
       (length (buildRoster st) < size (userSockets st))%nat).
Proof.
  split_and!.
  - apply NoDup_filter, NoDup_fst_map_to_list.
  - apply buildRoster_elem.
  - unfold buildRoster.
    etrans; [apply length_filter |].
    by rewrite length_fmap, length_map_to_list.
  - intros id [socks Hsocks] Hgone. unfold buildRoster.
    rewrite <- length_map_to_list, <- (length_fmap fst).
    apply (length_filter_lt _ _ id).
    + apply list_elem_of_fmap. exists (id, socks).
      split; [done | by apply elem_of_map_to_list].
    + rewrite Hgone. by intros [? ?].
Qed.

(** X17. The callback of the departure timer. While no timer of the
    user is pending, or before the pending one is due, it does nothing.
    Once due, it removes the timer and leaves the store and the map of
    connected sockets alone; if the user has a socket again it does
    nothing else and is silent; if not, it removes the user's entry
    from the map of sockets, so that the user is off the roster while
    everybody else stays on it and the online count falls by one if
    there was an entry, and it tells every socket, in this order, that
    the user left (under the display name the user has now, and only
    if the user still exists), the new roster and the new count. *)
Theorem departure_timeout_contract (st : State) (now uid : Z) :
  let r := departure_timeout st now uid in
  ((∀ due, disconnectTimers st !! uid = Some due → now < due) → r = (st, []))
  ∧ ∀ due, disconnectTimers st !! uid = Some due → due ≤ now →
      disconnectTimers r.1 = delete uid (disconnectTimers st)
      ∧ db r.1 = db st
      ∧ connectedUsers r.1 = connectedUsers st
      ∧ (∀ sid rest, userSockets st !! uid = Some (sid :: rest) →
           userSockets r.1 = userSockets st ∧ r.2 = [])
      ∧ (default [] (userSockets st !! uid) = [] →
           userSockets r.1 = delete uid (userSockets st)
           ∧ (∀ id, id ∈ buildRoster r.1 ↔ id ∈ buildRoster st ∧ id ≠ uid)
           ∧ (is_Some (userSockets st !! uid) →
                S (size (userSockets r.1)) = size (userSockets st))
           ∧ r.2
             = match getUserById (db st) uid with
               | Some latest =>
                   [Emit ToAll (system_message (Departed (display_name latest)))]
               | None => []
               end
               ++ [Emit ToAll (roster_update (buildRoster r.1));
                   Emit ToAll (online_count (size (userSockets r.1)))]).
Proof.
  cbn zeta. unfold departure_timeout. split.
  - intros Hearly. destruct (disconnectTimers st !! uid) as [due|]; [| done].
    specialize (Hearly due eq_refl).
    by destruct (Z.ltb_spec now due); [| lia].
  - intros due -> Hdue. destruct (Z.ltb_spec now due) as [? | _]; [lia |].
    cbn [userSockets db connectedUsers disconnectTimers].
    destruct (userSockets st !! uid) as [[|sid rest]|] eqn:Hsocks;
      cbn [fst snd userSockets db connectedUsers disconnectTimers default].
    + split_and!; try done. intros _. split_and!; try done.
      * intros id. rewrite !buildRoster_elem. cbn [db userSockets].
        destruct (decide (id = uid)) as [-> | Hother].
        -- rewrite lookup_delete_eq. split; [intros [_ [? ?]]; done | tauto].
        -- rewrite lookup_delete_ne by done. tauto.
      * intros _.
        assert (is_Some (userSockets st !! uid)) as Hentry
          by (by rewrite Hsocks).
        rewrite map_size_delete_Some by done.
        pose proof (map_size_ne_0_lookup_2 (userSockets st) uid Hentry).
        by destruct (size (userSockets st)).
    + by split_and!.
    + split_and!; try done. intros _. split_and!; try done.
      * intros id. rewrite !buildRoster_elem. cbn [db userSockets].
        destruct (decide (id = uid)) as [-> | Hother].
        -- rewrite lookup_delete_eq. split; [intros [_ [? ?]]; done | tauto].
        -- rewrite lookup_delete_ne by done. tauto.
Qed.

Lemma departure_timeout_contract_witness :
  let st :=
    {| db := mention_store; connectedUsers := ∅;
       userSockets := {[ 2 := [] ]}; disconnectTimers := {[ 2 := 7500 ]} |} in
  (departure_timeout st 7500 2).2
  = [Emit ToAll (system_message (Departed "Bob"));
     Emit ToAll (roster_update []);
     Emit ToAll (online_count 0)].
Proof.
  cbn zeta.
  destruct (departure_timeout_contract
              {| db := mention_store; connectedUsers := ∅;
                 userSockets := {[ 2 := [] ]};
                 disconnectTimers := {[ 2 := 7500 ]} |} 7500 2) as [_ Hdue].
  destruct (Hdue 7500 eq_refl ltac:(lia)) as (_ & _ & _ & _ & Hgone).
  destruct (Hgone eq_refl) as (_ & _ & _ & ->). reflexivity.
Defined.

Lemma step_registry_consistent (st : State) (now : Z) (i : Input) :
  registry_consistent st → registry_consistent (step st now i).1.
Proof.
  intros Hinv. destruct i as [sid session mode | sid userId | userId];
    cbn [step].
  - unfold on_connection. destruct (or_null session) as [userId|]; [| done].
    destruct (getUserById (db st) userId) as [user|]; [| done].
    cbn [fst]. intros sid' uid. cbn [connectedUsers userSockets].
    destruct (decide (sid' = sid)) as [-> | Hother].
    + rewrite lookup_insert_eq. intros [= <-]. rewrite lookup_insert_eq.
      eexists. split; [done |]. unfold set_add. case_decide; [done |].
      apply elem_of_app. right. left.
    + rewrite lookup_insert_ne by done. intros (socks & Hsocks & Hin)%Hinv.
      destruct (decide (uid = user_id user)) as [-> | Hne].
      * rewrite lookup_insert_eq, Hsocks. cbn [default].
        eexists. split; [done |]. unfold set_add. case_decide; [done |].
        apply elem_of_app. by left.
      * rewrite lookup_insert_ne by done. eauto.
  - unfold on_disconnect. cbn [userSockets].
    assert (∀ sid' uid, delete sid (connectedUsers st) !! sid' = Some uid →
              sid' ≠ sid ∧ ∃ socks, userSockets st !! uid = Some socks
                                    ∧ sid' ∈ socks) as Hrest.
    { intros sid' uid. destruct (decide (sid' = sid)) as [-> | Hother].
      - by rewrite lookup_delete_eq.
      - rewrite lookup_delete_ne by done. intros ?%Hinv. done. }
    destruct (userSockets st !! userId) as [socksOfUser|] eqn:Hsocks.
    + assert (registry_consistent
                {| db := db st; connectedUsers := delete sid (connectedUsers st);
                   userSockets :=
                     <[userId := set_delete sid socksOfUser]> (userSockets st);
                   disconnectTimers := disconnectTimers st |}) as Hnew.
      { intros sid' uid. cbn [connectedUsers userSockets].
        intros (Hother & socks & Hsocks' & Hin)%Hrest.
        destruct (decide (uid = userId)) as [-> | Hne].
        - rewrite lookup_insert_eq. eexists. split; [done |].
          unfold set_delete. apply list_elem_of_filter. split; [done |].
          congruence.
        - rewrite lookup_insert_ne by done. eauto. }
      destruct (bool_decide (length (set_delete sid socksOfUser) = 0%nat));
        [| exact Hnew].
      cbn [fst]. unfold scheduleDeparture. cbn [disconnectTimers].
      by destruct (disconnectTimers st !! userId).
    + cbn [fst]. intros sid' uid. cbn [connectedUsers userSockets].
      intros (_ & Hfound)%Hrest. done.
  - unfold departure_timeout.
    destruct (disconnectTimers st !! userId) as [due|]; [| done].
    destruct (now <? due); [done |]. cbn [userSockets].
    destruct (userSockets st !! userId) as [[|sid rest]|] eqn:Hsocks;
      cbn [fst]; intros sid' uid; cbn [connectedUsers userSockets];
      intros (socks & Hsocks' & Hin)%Hinv.
    + destruct (decide (uid = userId)) as [-> | Hne].
      * rewrite Hsocks in Hsocks'. simplify_eq. by apply elem_of_nil in Hin.
      * rewrite lookup_delete_ne by done. eauto.
    + eauto.
    + destruct (decide (uid = userId)) as [-> | Hne]; [congruence |].
      rewrite lookup_delete_ne by done. eauto.
Qed.

(** X18. Two invariants of the presence registry, kept by every
    sequence of connections, disconnections and timer callbacks: a user
    with a live socket has no pending departure timer, and every
    connected socket is in the socket set of its user. So, in any state
    a run reaches from a state that has both, the timer callback for a
    user who has a connected socket does nothing, whenever it runs:
    nobody with a live connection is announced as gone or taken off the
    roster. *)
Theorem run_registry_invariants (inputs : list (Z * Input)) (st : State) :
  timer_discipline st → registry_consistent st →
  let st' := (run st inputs).1 in
  timer_discipline st' ∧ registry_consistent st'
  ∧ ∀ sid uid now, connectedUsers st' !! sid = Some uid →
      departure_timeout st' now uid = (st', []).
Proof.
  intros Htimers Hsockets. cbn zeta.
  assert (timer_discipline (run st inputs).1
          ∧ registry_consistent (run st inputs).1) as [Htimers' Hsockets'].
  { revert st Htimers Hsockets.
    induction inputs as [|[now i] rest IH]; intros st Htimers Hsockets;
      [done |].
    cbn [run].
    pose proof (step_timer_discipline st now i Htimers) as Hstep1.
    pose proof (step_registry_consistent st now i Hsockets) as Hstep2.
    destruct (step st now i) as [st1 out1].
    specialize (IH st1 Hstep1 Hstep2).
    by destruct (run st1 rest) as [st2 out2]. }
  split_and!; [done | done |].
  intros sid uid now (socks & Hsocks & Hin)%Hsockets'.
  unfold departure_timeout.
  rewrite (Htimers' uid socks Hsocks); [done |].
  intros ->. by apply elem_of_nil in Hin.
Qed.

Lemma run_registry_invariants_witness :
  departure_timeout (run idle_state refresh_scenario).1 9000 2
  = ((run idle_state refresh_scenario).1, []).
Proof.
  destruct (run_registry_invariants refresh_scenario idle_state)
    as (_ & _ & Hquiet).
  - apply idle_timer_discipline.
  - intros sid uid Hsid. cbn in Hsid. by rewrite lookup_empty in Hsid.
  - apply (Hquiet "b3"%string 2 9000). by vm_compute.
Defined.

(** X19. A connection without a session user, with the session user 0,
    or with a session user that is not in the store, is turned away:
    the socket is told to authenticate and is closed, nobody else is
    told anything, and the state is what it was, so that such
    connections never show in the roster or the online count. *)
Theorem on_connection_rejected (st : State) (sid : string)
    (session_user : option Z) (mode : Mode) :
  (∀ uid, session_user = Some uid → uid ≠ 0 →
     getUserById (db st) uid = None) →
  on_connection st sid session_user mode
  = (st, [Emit (ToSocket sid) auth_required; Close sid])
  ∧ ∀ inputs,
      run st ((λ now, (now, Connect sid session_user mode)) <$> inputs)
      = (st, mjoin ((λ _, [Emit (ToSocket sid) auth_required; Close sid])
                    <$> inputs)).
Proof.
  intros Hunknown.
  assert (on_connection st sid session_user mode
          = (st, [Emit (ToSocket sid) auth_required; Close sid])) as Hreject.
  { unfold on_connection, reject. destruct session_user as [uid|]; [| done].
    cbn [or_null]. unfold truthy.
    destruct (Z.eqb_spec uid 0) as [-> | Hid]; [done |]. cbn [negb].
    by rewrite (Hunknown uid eq_refl Hid). }
  split; [done |].
  induction inputs as [|now rest IH]; [done |].
  cbn [fmap list_fmap run step mjoin list_join]. rewrite Hreject.
  cbn [fmap list_fmap] in IH. rewrite IH. reflexivity.
Qed.

Lemma on_connection_rejected_witness :
  on_connection chat_state "x1" (Some 7) chat
  = (chat_state, [Emit (ToSocket "x1") auth_required; Close "x1"]).
Proof.
  apply (on_connection_rejected chat_state "x1" (Some 7) chat).
  intros uid [= <-] _. reflexivity.
Defined.

End Departures.

(** ** Escaping and sanitising *)

Section Escaping.

Lemma append_cons (x : ascii) (a b : string) :
  (String x a ++ b)%string = String x (a ++ b).
Proof. reflexivity. Qed.

Lemma append_empty (b : string) : (EmptyString ++ b)%string = b.
Proof. reflexivity. Qed.

Lemma string_app_assoc (a b c : string) :
  ((a ++ b) ++ c = a ++ (b ++ c))%string.
Proof.
  induction a as [|x a IH]; [done |]. by rewrite !append_cons, IH.
Qed.

Lemma replace_char_app (c : ascii) (by_ a b : string) :
  replace_char c by_ (a ++ b)
  = (replace_char c by_ a ++ replace_char c by_ b)%string.
Proof.
  induction a as [|x a IH]; [done |].
  rewrite append_cons. cbn [replace_char].
  destruct (decide (x = c)); rewrite IH;
    [by rewrite string_app_assoc | by rewrite append_cons].
Qed.

Lemma escapeHtml_app (a b : string) :
  escapeHtml (a ++ b) = (escapeHtml a ++ escapeHtml b)%string.
Proof. unfold escapeHtml. by rewrite !replace_char_app. Qed.

Lemma escapeHtml_cons (c : ascii) (r : string) :
  escapeHtml (String c r)
  = (escapeHtml (String c EmptyString) ++ escapeHtml r)%string.
Proof. by rewrite <- escapeHtml_app. Qed.

Lemma escapeHtml_plain (c : ascii) :
  c ∉ ["&"; "<"; ">"; double_quote; single_quote]%char →
  escapeHtml (String c EmptyString) = String c EmptyString.
Proof.
  intros Hplain. unfold escapeHtml. cbn.
  rewrite !not_elem_of_cons in Hplain.
  destruct Hplain as (? & ? & ? & ? & ? & _).
  repeat (rewrite decide_False by done; cbn). done.
Qed.

(** The six shapes of the image of one character. *)
Lemma escapeHtml_char (c : ascii) :
  (c = "&"%char ∧ escapeHtml (String c EmptyString) = "&amp;"%string)
  ∨ (c = "<"%char ∧ escapeHtml (String c EmptyString) = "&lt;"%string)
  ∨ (c = ">"%char ∧ escapeHtml (String c EmptyString) = "&gt;"%string)
  ∨ (c = double_quote ∧ escapeHtml (String c EmptyString) = "&quot;"%string)
  ∨ (c = single_quote ∧ escapeHtml (String c EmptyString) = "&#039;"%string)
  ∨ ((c ∉ ["&"; "<"; ">"; double_quote; single_quote]%char)
     ∧ escapeHtml (String c EmptyString) = String c EmptyString).
Proof.
  destruct (decide (c = "&"%char)) as [-> | ?]; [by left |].
  destruct (decide (c = "<"%char)) as [-> | ?]; [by right; left |].
  destruct (decide (c = ">"%char)) as [-> | ?]; [by do 2 right; left |].
  destruct (decide (c = double_quote)) as [-> | ?]; [by do 3 right; left |].
  destruct (decide (c = single_quote)) as [-> | ?]; [by do 4 right; left |].
  do 5 right.
  assert (c ∉ ["&"; "<"; ">"; double_quote; single_quote]%char) as Hplain.
  { rewrite !not_elem_of_cons. split_and!; try done. apply not_elem_of_nil. }
  split; [done | by apply escapeHtml_plain].
Qed.

Lemma list_ascii_of_string_app (a b : string) :
  list_ascii_of_string (a ++ b)
  = list_ascii_of_string a ++ list_ascii_of_string b.
Proof.
  induction a as [|x a IH]; [done |].
  rewrite append_cons. cbn [list_ascii_of_string]. by rewrite IH.
Qed.

(** X20. [escapeHtml] works character by character although it makes
    five passes: the image of a text is the concatenation of the images
    of its characters, the five special characters become their
    entities (the ampersand of an entity is not escaped again) and
    every other character stays. So the result holds no angle bracket
    and no quote; a text without special characters is returned as it
    is; and two different texts never have the same image. *)
Theorem escapeHtml_contract :
  (∀ a b, escapeHtml (a ++ b) = (escapeHtml a ++ escapeHtml b)%string)
  ∧ escapeHtml "&" = "&amp;"%string
  ∧ escapeHtml "<" = "&lt;"%string
  ∧ escapeHtml ">" = "&gt;"%string
  ∧ escapeHtml (String double_quote EmptyString) = "&quot;"%string
  ∧ escapeHtml (String single_quote EmptyString) = "&#039;"%string
  ∧ (∀ c, c ∉ ["&"; "<"; ">"; double_quote; single_quote]%char →
       escapeHtml (String c EmptyString) = String c EmptyString)
  ∧ (∀ s c, c ∈ list_ascii_of_string (escapeHtml s) →
       c ∉ ["<"; ">"; double_quote; single_quote]%char)
  ∧ (∀ s, Forall (λ c, c ∉ ["&"; "<"; ">"; double_quote; single_quote]%char)
            (list_ascii_of_string s) →
       escapeHtml s = s)
  ∧ (∀ s t, escapeHtml s = escapeHtml t → s = t).
Proof.
  split_and!; try reflexivity.
  - apply escapeHtml_app.
  - apply escapeHtml_plain.
  - induction s as [|x s IH]; intros c.
    + by intros ?%elem_of_nil.
    + rewrite escapeHtml_cons, list_ascii_of_string_app, elem_of_app.
      intros [Hhead | Htail]; [| by apply IH].
      destruct (escapeHtml_char x)
        as [[_ Hx] | [[_ Hx] | [[_ Hx] | [[_ Hx] | [[_ Hx] | [Hplain Hx]]]]]];
        rewrite Hx in Hhead; cbn in Hhead.
      1-5: unfold double_quote, single_quote;
           set_unfold; intuition (subst; discriminate).
      apply list_elem_of_singleton in Hhead as ->.
      set_unfold. intuition.
  - induction s as [|x s IH]; [done |]. cbn [list_ascii_of_string].
    intros [Hx Hs]%Forall_cons. rewrite escapeHtml_cons, IH by done.
    by rewrite escapeHtml_plain.
  - induction s as [|x s IH]; intros [|y t].
    + done.
    + rewrite (escapeHtml_cons y).
      destruct (escapeHtml_char y)
        as [[_ Hy] | [[_ Hy] | [[_ Hy] | [[_ Hy] | [[_ Hy] | [_ Hy]]]]]];
        rewrite Hy; discriminate.
    + rewrite (escapeHtml_cons x).
      destruct (escapeHtml_char x)
        as [[_ Hx] | [[_ Hx] | [[_ Hx] | [[_ Hx] | [[_ Hx] | [_ Hx]]]]]];
        rewrite Hx; discriminate.
    + rewrite (escapeHtml_cons x), (escapeHtml_cons y).
      destruct (escapeHtml_char x)
        as [[-> Hx] | [[-> Hx] | [[-> Hx] | [[-> Hx] | [[-> Hx] | [Hpx Hx]]]]]];
      destruct (escapeHtml_char y)
        as [[-> Hy] | [[-> Hy] | [[-> Hy] | [[-> Hy] | [[-> Hy] | [Hpy Hy]]]]]];
        rewrite ?Hx, ?Hy; rewrite ?append_cons, ?append_empty;
        try discriminate;
        try (intros [= Heq]; f_equal; by apply IH);
        try (intros [= Hc _]; exfalso;
             first [apply Hpx | apply Hpy]; rewrite <- ?Hc, ?Hc;
             unfold double_quote, single_quote; set_solver).
      intros [= -> Heq]. f_equal. by apply IH.
Qed.

End Escaping.

Section Sanitizing.

Lemma all_chars_cons (P : ascii → bool) (c : ascii) (s : string) :
  all_chars P (String c s) ↔ P c = true ∧ all_chars P s.
Proof. unfold all_chars. cbn. apply (Forall_cons (λ x, P x = true)). Qed.

Lemma all_chars_app (P : ascii → bool) (a b : string) :
  all_chars P (a ++ b) ↔ all_chars P a ∧ all_chars P b.
Proof.
  unfold all_chars. rewrite list_ascii_of_string_app.
  apply (Forall_app (λ x, P x = true)).
Qed.











End Sanitizing.

Section MentionTokens.

Lemma all_chars_snoc (P : ascii → bool) (s : string) (c : ascii) :
  all_chars P s → P c = true → all_chars P (s ++ String c EmptyString).
Proof.
  intros Hs Hc. apply all_chars_app. split; [done |].
  apply all_chars_cons. split; [done | constructor].
Qed.







End MentionTokens.

Section ResetCodes.

Lemma is_digit_digit_char (d : Z) : 0 ≤ d < 10 → is_digit (digit_char d) = true.
Proof.
  intros Hd. assert (d = 0 ∨ d = 1 ∨ d = 2 ∨ d = 3 ∨ d = 4 ∨ d = 5 ∨ d = 6
                     ∨ d = 7 ∨ d = 8 ∨ d = 9) as Hcases by lia.
  repeat (destruct Hcases as [-> | Hcases]; [reflexivity |]). by subst.
Qed.

Lemma length_append (a b : string) :
  String.length (a ++ b) = (String.length a + String.length b)%nat.
Proof.
  induction a as [|c r IH]; [done |]. rewrite append_cons. cbn. by rewrite IH.
Qed.

Lemma decimal_digits_spec (fuel : nat) : ∀ (k : nat) (n : Z) (acc : string),
  0 ≤ n < 10 ^ Z.of_nat k → (1 ≤ k ≤ fuel)%nat →
  ∃ digits, decimal_digits fuel n acc = (digits ++ acc)%string
            ∧ (1 ≤ String.length digits ≤ k)%nat
            ∧ all_chars is_digit digits.
Proof.
  induction fuel as [|fuel IH]; intros k n acc Hn Hk; [lia |].
  cbn [decimal_digits].
  assert (is_digit (digit_char (n mod 10)) = true) as Hdigit.
  { apply is_digit_digit_char. apply Z.mod_pos_bound. lia. }
  destruct (Z.eqb_spec (n / 10) 0) as [Hlast | Hmore].
  - exists (String (digit_char (n mod 10)) EmptyString).
    split_and!; [done | cbn; lia | cbn; lia |].
    apply all_chars_cons. split; [done | constructor].
  - destruct k as [|k]; [lia |].
    assert (1 ≤ k)%nat as Hk1.
    { destruct k; [| lia]. change (10 ^ Z.of_nat 1) with 10 in Hn.
      exfalso. apply Hmore. apply Z.div_small. lia. }
    destruct (IH k (n / 10) (String (digit_char (n mod 10)) acc))
      as (digits & Heq & Hlen & Hall).
    { split; [apply Z.div_pos; lia |].
      apply Z.div_lt_upper_bound; [lia |].
      replace (Z.of_nat (S k)) with (Z.succ (Z.of_nat k)) in Hn by lia.
      rewrite Z.pow_succ_r in Hn by lia. lia. }
    { lia. }
    exists (digits ++ String (digit_char (n mod 10)) EmptyString)%string.
    split_and!.
    + rewrite Heq. by rewrite string_app_assoc.
    + rewrite length_append. cbn. lia.
    + rewrite length_append. cbn. lia.
    + by apply all_chars_snoc.
Qed.

Lemma length_repeat_char (n : nat) (c : ascii) :
  String.length (repeat_char n c) = n.
Proof. induction n as [|n IH]; [done |]. cbn. by rewrite IH. Qed.

Lemma all_chars_repeat_char (P : ascii → bool) (n : nat) (c : ascii) :
  P c = true → all_chars P (repeat_char n c).
Proof.
  intros Hc. induction n as [|n IH]; [constructor |].
  cbn [repeat_char]. by apply all_chars_cons.
Qed.

(** X23. [generateResetCode] draws one value from the random source and
    always returns a code of exactly six decimal digits, whatever the
    value drawn: small numbers are padded with zeros on the left. *)
Theorem generateResetCode_six_digits (w : World) :
  let code := (generateResetCode w).1 in
  String.length code = 6%nat
  ∧ all_chars is_digit code
  ∧ (generateResetCode w).2 = advance 1 w.
Proof.
  cbn zeta. unfold generateResetCode, randomInt, eff_bind, eff_ret, raw_draw.
  cbv beta iota zeta. cbn [fst snd].
  set (n := (0 + entropy w (drawn w) mod (Z.to_nat 1000000 - 0))%nat).
  assert (Z.of_nat n < 1000000) as Hn.
  { subst n. rewrite Nat.add_0_l, Nat.sub_0_r.
    pose proof (Nat.mod_upper_bound (entropy w (drawn w)) (Z.to_nat 1000000)).
    lia. }
  destruct (decimal_digits_spec 19 6 (Z.of_nat n) EmptyString)
    as (digits & Heq & Hlen & Hall); [| lia |].
  { change (10 ^ Z.of_nat 6) with 1000000. lia. }
  unfold number_toString. rewrite Heq.
  assert ((digits ++ "")%string = digits) as ->.
  { clear. induction digits as [|c r IH]; [done |].
    by rewrite append_cons, IH. }
  unfold padStart. split_and!.
  - rewrite length_append, length_repeat_char. lia.
  - apply all_chars_app. split; [by apply all_chars_repeat_char | done].
  - done.
Qed.

End ResetCodes.

Section GeneratedCodes.










End GeneratedCodes.

(** ** Stickers read back from the store file *)

Section StoredStickers.


Lemma length_trim (s : string) :
  (String.length (trim s) ≤ String.length s)%nat.
Proof.
  unfold trim. etrans; [apply length_trim_end | apply length_trim_start].
Qed.








End StoredStickers.

Section InputNormalisers.



End InputNormalisers.
